(** * cp2112_demo: register decoding, OCP encoding and the polling loop

    A shallow embedding of [demo_to_convert/src/cp2112_demo.c].  The program
    opens a CP2112 HID-to-SMBus bridge, reads and rewrites the over-current
    setpoint of an LVDC4816 converter, and then polls eight telemetry
    registers forever, appending one CSV row per cycle to [outputA.csv].

    - [CInt]      : the fixed-width integer conversions of C, wrap-around
                    written out on [Z];
    - [Float32]   : IEEE-754 binary32 ([float]) on the Standard Library's
                    [spec_float];
    - [Printf]    : the four conversion directives the program prints with;
    - [Decoder]   : the raw-register arithmetic of [main];
    - [Program]   : [main] itself, as a state-passing function that records
                    every call to an external collaborator in a trace;
    - [Observations], [Coverage] : the vocabulary of the statements (what a
                    pass reads, writes and logs) and the example
                    environments. *)

From Stdlib Require Import ZArith QArith List String Ascii Bool Lia.
From Stdlib Require Import Floats.SpecFloat.
From Stdlib Require DecimalString HexadecimalString.
Import ListNotations.

Open Scope Z_scope.

(** ** Fixed-width integers *)

Module CInt.

(** Value of a [w]-bit unsigned object holding [z]. *)
Definition wrap_unsigned (w : Z) (z : Z) : Z := z mod 2 ^ w.

(** Value of a [w]-bit two's-complement object holding [z].  ISO C leaves
    the out-of-range case implementation-defined (conversion) or undefined
    (arithmetic overflow); the compilers for the program's Windows/x86
    target keep the low [w] bits, which is what is written here. *)
Definition wrap_signed (w : Z) (z : Z) : Z :=
  (z + 2 ^ (w - 1)) mod 2 ^ w - 2 ^ (w - 1).

Definition to_BYTE   : Z -> Z := wrap_unsigned 8.    (* BYTE, UINT8 *)
Definition to_UINT8  : Z -> Z := wrap_unsigned 8.
Definition to_UINT16 : Z -> Z := wrap_unsigned 16.   (* WORD, UINT16 *)
Definition to_INT16  : Z -> Z := wrap_signed 16.
Definition to_int    : Z -> Z := wrap_signed 32.
Definition to_unsigned : Z -> Z := wrap_unsigned 32.

End CInt.

(** ** Single-precision floating point *)

Module Float32.

Definition prec : Z := 24.
Definition emax : Z := 128.

Definition float32 : Type := spec_float.

(** Integer-to-[float] conversion (round to nearest even). *)
Definition of_int (z : Z) : float32 := binary_normalize prec emax z 0 false.

Definition div : float32 -> float32 -> float32 := SFdiv prec emax.
Definition mul : float32 -> float32 -> float32 := SFmul prec emax.
Definition sub : float32 -> float32 -> float32 := SFsub prec emax.

Definition is_finite (f : float32) : bool :=
  match f with
  | S754_zero _ | S754_finite _ _ _ => true
  | S754_infinity _ | S754_nan => false
  end.

(** The rational a finite float denotes ([0] for infinities and NaN, which
    [is_finite] tells apart). *)
Definition value (f : float32) : Q :=
  match f with
  | S754_finite s m e => inject_Z (cond_Zopp s (Zpos m)) * 2 ^ e
  | _ => 0
  end%Q.

(** Integral part, rounding toward zero. *)
Definition trunc (f : float32) : option Z :=
  match f with
  | S754_zero _ => Some 0
  | S754_finite s m e =>
      Some (cond_Zopp s (if 0 <=? e then Zpos m * 2 ^ e
                         else Zpos m / 2 ^ (- e)))
  | S754_infinity _ | S754_nan => None
  end.

(** The conversion of a [float] to an unsigned integer type of [w] bits:
    the fractional part is discarded, and the result is defined only if
    the integral part fits the type (ISO C 6.3.1.4). *)
Definition cast_unsigned (w : Z) (f : float32) : option Z :=
  match trunc f with
  | Some z => if (0 <=? z) && (z <? 2 ^ w) then Some z else None
  | None => None
  end.

(** What a build does with the conversions the language leaves undefined:
    the width of the target type and the operand give some integer, of
    which the target type keeps its [w] bits.  Builds differ here, so this
    is a parameter of every definition that converts. *)
Definition undefined_conversion : Type := Z -> float32 -> Z.

Definition cast (u : undefined_conversion) (w : Z) (f : float32) : Z :=
  match cast_unsigned w f with
  | Some z => z
  | None => CInt.wrap_unsigned w (u w f)
  end.

(** The casts [(UINT8)f] and [(UINT16)f]. *)
Definition cast_UINT8 (u : undefined_conversion) (f : float32) : Z := cast u 8 f.
Definition cast_UINT16 (u : undefined_conversion) (f : float32) : Z := cast u 16 f.

End Float32.

Export Float32(float32).

(** ** Formatted output *)

Module Printf.

Local Open Scope string_scope.

Definition CR : string := String (ascii_of_nat 13) EmptyString.
Definition LF : string := String (ascii_of_nat 10) EmptyString.
Definition CRLF : string := CR ++ LF.

(** Arguments of a variadic call after the default promotions: a [float]
    travels as a [double] of the same value, an [INT16] or [BYTE] as an
    [int]. *)
Inductive printf_arg : Type :=
| ArgDouble (f : float32)
| ArgInt (z : Z).

Definition decimal (z : Z) : string :=
  DecimalString.NilZero.string_of_uint (N.to_uint (Z.to_N z)).

Definition hex_lower (z : Z) : string :=
  HexadecimalString.NilZero.string_of_uint (N.to_hex_uint (Z.to_N z)).

Definition upper_ascii (c : ascii) : ascii :=
  let n := nat_of_ascii c in
  if (Nat.leb 97 n && Nat.leb n 122)%bool then ascii_of_nat (n - 32) else c.

Fixpoint upper (s : string) : string :=
  match s with
  | EmptyString => EmptyString
  | String c s' => String (upper_ascii c) (upper s')
  end.

Fixpoint zeros (n : nat) : string :=
  match n with
  | O => EmptyString
  | S k => String "0" (zeros k)
  end.

Definition pad_zero (width : nat) (s : string) : string :=
  zeros (width - String.length s) ++ s.

Definition sign_text (s : bool) : string := if s then "-" else "".

(** [n / d] rounded to the nearest integer, ties to even ([0 <= n],
    [0 < d]). *)
Definition round_half_even (n d : Z) : Z :=
  let q := (n / d)%Z in
  match (2 * (n mod d) ?= d)%Z with
  | Lt => q
  | Gt => (q + 1)%Z
  | Eq => if Z.even q then q else (q + 1)%Z
  end.

(** Magnitude of [m * 2^e] in hundredths, correctly rounded. *)
Definition hundredths (m : positive) (e : Z) : Z :=
  if (0 <=? e)%Z then (Zpos m * 100 * 2 ^ e)%Z
  else round_half_even (Zpos m * 100)%Z (2 ^ (- e))%Z.

(** [%2.2f]: the minimum width of 2 never pads, since the shortest output
    has three characters. *)
Definition fmt_2_2f (f : float32) : string :=
  match f with
  | S754_zero s => sign_text s ++ "0.00"
  | S754_finite s m e =>
      let h := hundredths m e in
      sign_text s ++ decimal (h / 100)%Z ++ "."
        ++ pad_zero 2 (decimal (h mod 100)%Z)
  | S754_infinity s => sign_text s ++ "inf"
  | S754_nan => "nan"
  end.

(** [%d] of an [int]. *)
Definition fmt_d (z : Z) : string :=
  let v := CInt.to_int z in
  if (v <? 0)%Z then "-" ++ decimal (- v)%Z else decimal v.

(** [%x] reads its [int] argument as [unsigned int]. *)
Definition fmt_x (z : Z) : string := hex_lower (CInt.to_unsigned z).

(** [%02X]. *)
Definition fmt_02X (z : Z) : string :=
  pad_zero 2 (upper (hex_lower (CInt.to_unsigned z))).

Definition is_conversion (c : ascii) : bool :=
  (Ascii.eqb c "f" || Ascii.eqb c "d" || Ascii.eqb c "x" || Ascii.eqb c "X")%bool.

(** One directive: [spec] is what stands between [%] and the conversion
    character [c].  Only the directives [main] uses are rendered. *)
Definition convert (spec : string) (c : ascii) (a : printf_arg) : string :=
  match a with
  | ArgDouble f =>
      if (String.eqb spec "2.2" && Ascii.eqb c "f")%bool then fmt_2_2f f else ""
  | ArgInt z =>
      if (String.eqb spec "" && Ascii.eqb c "d")%bool then fmt_d z
      else if (String.eqb spec "" && Ascii.eqb c "x")%bool then fmt_x z
      else if (String.eqb spec "02" && Ascii.eqb c "X")%bool then fmt_02X z
      else ""
  end.

(** The text a [printf]-family call produces.  [dir] holds the directive
    being read, if any. *)
Fixpoint render_from (dir : option string) (fmt : string)
         (args : list printf_arg) : string :=
  match fmt with
  | EmptyString => EmptyString
  | String c rest =>
      match dir with
      | None =>
          if Ascii.eqb c "%" then render_from (Some "") rest args
          else String c (render_from None rest args)
      | Some spec =>
          if is_conversion c then
            match args with
            | a :: args' => convert spec c a ++ render_from None rest args'
            | [] => render_from None rest []
            end
          else render_from (Some (spec ++ String c EmptyString)) rest args
      end
  end.

Definition render (fmt : string) (args : list printf_arg) : string :=
  render_from None fmt args.

End Printf.

Export Printf(printf_arg, ArgDouble, ArgInt, render, CRLF, LF).

(** ** Register arithmetic *)

Module Decoder.

Import Float32.

(** [(buffer[1] << 8) | buffer[0]], an [int] expression. *)
Definition assemble (b0 b1 : Z) : Z := Z.lor (Z.shiftl b1 8) b0.

(** The two assignments every register goes through,
    [X_raw = (buffer[1] << 8) | buffer[0]; X_raw = X_raw & 0xFFFF;]
    where [X_raw] is an [INT16]: each assignment converts to [INT16]. *)
Definition store_raw (v : Z) : Z :=
  let X_raw := CInt.to_INT16 v in
  CInt.to_INT16 (Z.land X_raw 0xFFFF).

(** [X_raw / 32.0f] *)
Definition scale32 (X_raw : Z) : float32 := div (of_int X_raw) (of_int 32).

(** [X_raw / 32.0f - 40.0f] *)
Definition scale32_minus40 (X_raw : Z) : float32 :=
  sub (div (of_int X_raw) (of_int 32)) (of_int 40).

(** Voltage, current and OCP registers, from the assembled 16-bit word. *)
Definition decode_voltage_or_current (raw : Z) : float32 :=
  scale32 (store_raw raw).

(** Temperature registers, from the assembled 16-bit word. *)
Definition decode_temperature (raw : Z) : float32 :=
  scale32_minus40 (store_raw raw).

(** [HWOCP_A*32] *)
Definition ticks (HWOCP_A : float32) : float32 := mul HWOCP_A (of_int 32).

(** [buffer[1] = ((UINT8)(HWOCP_A*32)&0xff);] *)
Definition ocp_low_byte (u : undefined_conversion) (HWOCP_A : float32) : Z :=
  CInt.to_BYTE (Z.land (cast_UINT8 u (ticks HWOCP_A)) 0xff).

(** [buffer[2] = (UINT8)(((UINT16)(HWOCP_A*32)>>8)&0xff);] *)
Definition ocp_high_byte (u : undefined_conversion) (HWOCP_A : float32) : Z :=
  CInt.to_BYTE
    (CInt.to_UINT8
       (Z.land (Z.shiftr (cast_UINT16 u (ticks HWOCP_A)) 8) 0xff)).

(** The setpoint bytes [main] sends after the register address: low byte,
    then high byte. *)
Definition encode_ocp_setpoint (u : undefined_conversion) (amps : float32)
  : Z * Z :=
  (ocp_low_byte u amps, ocp_high_byte u amps).

End Decoder.

Import Decoder.

(** ** The program *)

Module Program.

Import CInt Float32.
Local Open Scope string_scope.
Local Open Scope list_scope.
Local Open Scope Z_scope.

(** *** Constants of the source *)

Definition BITRATE_HZ : Z := 100000.
Definition ACK_ADDRESS : Z := 0x02.
Definition AUTO_RESPOND : bool := false.
Definition WRITE_TIMEOUT_MS : Z := 10.
Definition READ_TIMEOUT_MS : Z := 10.
Definition TRANSFER_RETRIES : Z := 0.
Definition SCL_LOW_TIMEOUT : bool := true.
Definition RESPONSE_TIMEOUT_MS : Z := 100.
Definition LVDC4816_SLAVE_ADDRESS0x60_W : Z := 0xC8.

(** *** Calls to the outside world *)

(** A [FILE *]; [None] is the null pointer. *)
Definition FILEp : Type := option nat.

Inductive stream : Type :=
| stderr
| to_file (fp : FILEp).

Inductive event : Type :=
| SMBus_Open_call
| SMBus_Configure_call (bitRate ackAddress : Z) (autoRespond : bool)
    (writeTimeout readTimeout : Z) (sclLowTimeout : bool)
    (transferRetries responseTimeout : Z)
| SMBus_Close_call
| SMBus_Read_call (slaveAddress numBytesToRead targetAddressSize target : Z)
| SMBus_Write_call (payload : list Z) (slaveAddress numBytesToWrite : Z)
| fprintf_call (out : stream) (format : string) (args : list printf_arg)
| getchar_call
| fopen_call (filename mode : string)
| fclose_call (fp : FILEp)
| Sleep_call (ms : Z).

(** What one [SMBus_Read] of two bytes brings back. *)
Inductive read_reply : Type :=
| Bytes (lo hi : Z)
| Failure.

(** Everything the program receives from its collaborators.  Replies are
    indexed by the place of the call in the program. *)
Record env : Type := {
  open_result : Z;                      (* SMBus_Open *)
  configure_result : Z;                 (* SMBus_Configure *)
  stack_garbage : nat -> Z;             (* buffer[] before its first write *)
  startup_read : nat -> read_reply;     (* the three reads before the loop *)
  startup_write : nat -> Z;             (* SMBus_Write, twice *)
  loop_read : nat -> nat -> read_reply; (* iteration, then read 0..7 *)
  log_open : nat -> FILEp;              (* fopen, once per iteration *)
  undefined_cast : undefined_conversion (* float-to-integer casts out of range *)
}.

(** *** Program state *)

Inductive int_var : Type :=
| MFRversion_raw | HWOCP_raw | temperature1_raw | temperature2_raw
| HVvoltage_raw | LVvoltage_raw | I2_current_raw | I1_current_raw
| I1_CNT | DUT_Status | first_timeA | first_timeB.

Inductive float_var : Type :=
| HWOCP_A | temperature1_C | temperature2_C | HVvoltage_V | LVvoltage_V
| I2_current_A | I1_current_A.

Definition int_var_eq_dec (x y : int_var) : {x = y} + {x <> y}.
Proof. decide equality. Defined.

Definition float_var_eq_dec (x y : float_var) : {x = y} + {x <> y}.
Proof. decide equality. Defined.

(** [first_timeA] and [first_timeB] are [int]; the others are [INT16]. *)
Definition convert_to (x : int_var) : Z -> Z :=
  match x with
  | first_timeA | first_timeB => to_int
  | _ => to_INT16
  end.

(** The arrays are indexed by constants below their size only, so they
    are kept as maps from index to byte. *)
Record state : Type := mkState {
  buffer : nat -> Z;          (* BYTE buffer[HID_SMBUS_MAX_READ_RESPONSE_SIZE] *)
  targetAddress : nat -> Z;   (* BYTE targetAddress[16] *)
  regLength : Z;              (* WORD *)
  ints : int_var -> Z;
  floats : float_var -> float32;
  trace : list event;         (* calls made so far, oldest first *)
  stopped : bool              (* the process has been ended *)
}.

Definition upd {A : Type} (f : nat -> A) (i : nat) (v : A) : nat -> A :=
  fun j => if Nat.eqb j i then v else f j.

Definition stmt : Type := state -> state.

Definition block (body : list stmt) : stmt :=
  fun st => fold_left (fun s c => c s) body st.

Definition call (ev : event) : stmt :=
  fun st => mkState (buffer st) (targetAddress st) (regLength st)
                    (ints st) (floats st) (trace st ++ [ev]) (stopped st).

Definition assign_buffer (i : nat) (rhs : state -> Z) : stmt :=
  fun st => mkState (upd (buffer st) i (to_BYTE (rhs st))) (targetAddress st)
                    (regLength st) (ints st) (floats st) (trace st)
                    (stopped st).

Definition assign_targetAddress (i : nat) (rhs : state -> Z) : stmt :=
  fun st => mkState (buffer st) (upd (targetAddress st) i (to_BYTE (rhs st)))
                    (regLength st) (ints st) (floats st) (trace st)
                    (stopped st).

Definition assign_regLength (rhs : state -> Z) : stmt :=
  fun st => mkState (buffer st) (targetAddress st) (to_UINT16 (rhs st))
                    (ints st) (floats st) (trace st) (stopped st).

Definition assign_int (x : int_var) (rhs : state -> Z) : stmt :=
  fun st => mkState (buffer st) (targetAddress st) (regLength st)
                    (fun y => if int_var_eq_dec y x then convert_to x (rhs st)
                              else ints st y)
                    (floats st) (trace st) (stopped st).

Definition assign_float (x : float_var) (rhs : state -> float32) : stmt :=
  fun st => mkState (buffer st) (targetAddress st) (regLength st) (ints st)
                    (fun y => if float_var_eq_dec y x then rhs st
                              else floats st y)
                    (trace st) (stopped st).

Definition fprintf (out : state -> stream) (format : string)
           (args : state -> list printf_arg) : stmt :=
  fun st => call (fprintf_call (out st) format (args st)) st.

(** The end of the process. *)
Definition stop : stmt :=
  fun st => mkState (buffer st) (targetAddress st) (regLength st)
                    (ints st) (floats st) (trace st) true.

(** [fprintf(fp, format, args...); rest] on the log.  The source passes
    [fp] on as [fopen] returned it.  Writing through a null [FILE *] is
    undefined; the C runtime of the target ends the process inside that
    call, so [rest] runs only when [fp] is a stream. *)
Definition fprintf_file (fp : FILEp) (format : string)
           (args : state -> list printf_arg) (rest : stmt) : stmt :=
  fun st =>
    let st' := call (fprintf_call (to_file fp) format (args st)) st in
    match fp with
    | Some _ => rest st'
    | None => stop st'
    end.

(** *** The SMBus collaborator *)

(** Modelled from the spec: [SMBus_Read] (declared in [smbus.h], whose
    implementation is not among the sources).  The spec gives it the
    contract "exactly [length] bytes | failure", a failure being any
    return value other than the requested length, and says that a failed
    read leaves the prior bytes of the shared buffer in place. *)
Definition SMBus_Read (reply : read_reply)
           (slaveAddress numBytesToRead targetAddressSize : Z)
           (st : state) : Z * state :=
  let st' := call (SMBus_Read_call slaveAddress numBytesToRead
                                   targetAddressSize (targetAddress st 0)) st in
  match reply with
  | Bytes lo hi =>
      (numBytesToRead,
       assign_buffer 1 (fun _ => hi) (assign_buffer 0 (fun _ => lo) st'))
  | Failure => (-1, st')
  end.

(** Modelled from the spec: [SMBus_Write] (same header), "success |
    failure", success being the return value 0.  The payload is the first
    [numBytesToWrite] bytes of the buffer. *)
Definition SMBus_Write (result : Z) (slaveAddress numBytesToWrite : Z)
           (st : state) : Z * state :=
  (result,
   call (SMBus_Write_call
           (map (buffer st) (seq 0 (Z.to_nat numBytesToWrite)))
           slaveAddress numBytesToWrite) st).

(** [if (SMBus_Read(m_hidSmbus, buffer, SLAVE, regLength, 1, targetAddress)
        != regLength) on_failure] *)
Definition if_SMBus_Read_fails (reply : read_reply) (on_failure : stmt) : stmt :=
  fun st =>
    let '(n, st') := SMBus_Read reply LVDC4816_SLAVE_ADDRESS0x60_W
                                (regLength st) 1 st in
    if negb (n =? regLength st') then on_failure st' else st'.

(** [if (SMBus_Write(m_hidSmbus, buffer, SLAVE, regLength)) on_failure] *)
Definition if_SMBus_Write_fails (result : Z) (on_failure : stmt) : stmt :=
  fun st =>
    let '(r, st') := SMBus_Write result LVDC4816_SLAVE_ADDRESS0x60_W
                                 (regLength st) st in
    if negb (r =? 0) then on_failure st' else st'.

(** *** Reading one register

    The source repeats the same five statements for every register, with
    its own address, variable and error text:
<<
    targetAddress[0] = REG;
    regLength = 2;
    if (SMBus_Read(...) != regLength)
        fprintf(stderr, ERRFMT, targetAddress[0]);
    X_raw = (buffer[1] << 8) | buffer[0];
    X_raw = X_raw & 0xFFFF;
>> *)
Definition read_register (reply : read_reply) (reg : Z) (errfmt : string)
           (X_raw : int_var) : list stmt :=
  [ assign_targetAddress 0 (fun _ => reg);
    assign_regLength (fun _ => 2);
    if_SMBus_Read_fails reply
      (fprintf (fun _ => stderr) errfmt
               (fun st => [ArgInt (targetAddress st 0)]));
    assign_int X_raw (fun st => assemble (buffer st 0) (buffer st 1));
    assign_int X_raw (fun st => Z.land (ints st X_raw) 0xFFFF) ].

(** [X = X_raw / 32.0f;] *)
Definition scale (X : float_var) (X_raw : int_var) : stmt :=
  assign_float X (fun st => div (of_int (ints st X_raw)) (of_int 32)).

(** [X = X_raw / 32.0f - 40.0f;] *)
Definition scale_celsius (X : float_var) (X_raw : int_var) : stmt :=
  assign_float X
    (fun st => sub (div (of_int (ints st X_raw)) (of_int 32)) (of_int 40)).

(** *** Text constants *)

Definition loop_read_error : string :=
  "ERROR: Could not perform SMBus read. Reg = %02X" ++ CRLF.

Definition report_format : string :=
  "HV_V=%2.2f, LV_V=%2.2f, I1_A=%2.2f, I2_A=%2.2f, Temp1_C=%2.2f, Temp2_C=%2.2f, I1_CNT=%d, DUT_Status=0x%x"
    ++ CRLF.

Definition csv_header : string :=
  "HV_V,LV_V,I1_A,I2_A,Temp1_C,Temp2_C,I1_CNT,DUT_Status" ++ LF.

Definition csv_row_format : string :=
  "%2.2f,%2.2f,%2.2f,%2.2f,%2.2f,%2.2f,%d,0x%x" ++ LF.

(** The arguments shared by the report line and the CSV row. *)
Definition record_args (st : state) : list printf_arg :=
  [ ArgDouble (floats st HVvoltage_V); ArgDouble (floats st LVvoltage_V);
    ArgDouble (floats st I1_current_A); ArgDouble (floats st I2_current_A);
    ArgDouble (floats st temperature1_C); ArgDouble (floats st temperature2_C);
    ArgInt (ints st I1_CNT); ArgInt (ints st DUT_Status) ].

(** *** Startup: everything between the configuration and the loop *)

Definition startup (e : env) : list stmt :=
  (* MFRversion [0x9B] *)
  read_register (startup_read e 0%nat) 0x9B
    ("ERROR: Could not perform SMBus read 'MFRversion' Reg  %02X" ++ CRLF)
    MFRversion_raw
  ++ [ fprintf (fun _ => stderr) ("MFRversion=0x%x" ++ CRLF)
               (fun st => [ArgInt (ints st MFRversion_raw)]) ]
  (* HW OCP [0xEA] *)
  ++ read_register (startup_read e 1%nat) 0xEA
       ("ERROR: Could not perform SMBus read 'HW_OCP' Reg %02X" ++ CRLF)
       HWOCP_raw
  ++ [ scale HWOCP_A HWOCP_raw;
       fprintf (fun _ => stderr) ("HWOCP=%2.2f" ++ CRLF)
               (fun st => [ArgDouble (floats st HWOCP_A)]);
       (* Write protect [0x10] *)
       assign_targetAddress 0 (fun _ => 0x10);
       assign_buffer 0 (fun _ => 0x10);
       assign_buffer 1 (fun _ => 0);
       assign_regLength (fun _ => 2);
       if_SMBus_Write_fails (startup_write e 0%nat)
         (fprintf (fun _ => stderr)
            ("ERROR: Could not perform SMBus write 'Write protect' Reg = %02X" ++ CRLF)
            (fun st => [ArgInt (targetAddress st 0)]));
       (* HW OCP [0xEA] *)
       assign_targetAddress 0 (fun _ => 0xEA);
       assign_float HWOCP_A (fun _ => of_int 600);
       assign_buffer 0 (fun _ => 0xEA);
       assign_buffer 1
         (fun st => fst (encode_ocp_setpoint (undefined_cast e)
                                             (floats st HWOCP_A)));
       assign_buffer 2
         (fun st => snd (encode_ocp_setpoint (undefined_cast e)
                                             (floats st HWOCP_A)));
       fprintf (fun _ => stderr) ("Setting HWOCP to %d " ++ CRLF)
               (fun st => [ArgInt (buffer st 1)]);
       fprintf (fun _ => stderr) ("Setting HWOCP to %d " ++ CRLF)
               (fun st => [ArgInt (buffer st 2)]);
       assign_regLength (fun _ => 3);
       if_SMBus_Write_fails (startup_write e 1%nat)
         (fprintf (fun _ => stderr)
            ("ERROR: Could not perform SMBus write. Reg = %02X" ++ CRLF)
            (fun st => [ArgInt (targetAddress st 0)])) ]
  (* HW OCP [0xEA] *)
  ++ read_register (startup_read e 2%nat) 0xEA
       ("ERROR: Could not perform SMBus read. Reg = %02X" ++ CRLF) HWOCP_raw
  ++ [ scale HWOCP_A HWOCP_raw;
       fprintf (fun _ => stderr) ("HWOCP=%2.2f" ++ CRLF)
               (fun st => [ArgDouble (floats st HWOCP_A)]) ].

(** *** One pass of [while(1)] *)

(** The eight reads of iteration [i]. *)
Definition poll_registers (e : env) (i : nat) : list stmt :=
  [ assign_buffer 0 (fun _ => 0);
    assign_buffer 1 (fun _ => 0) ]
  (* Temperature1 [0x8D] *)
  ++ read_register (loop_read e i 0%nat) 0x8D loop_read_error temperature1_raw
  ++ [ scale_celsius temperature1_C temperature1_raw ]
  (* Temperature2 [0x8E] *)
  ++ read_register (loop_read e i 1%nat) 0x8E loop_read_error temperature2_raw
  ++ [ scale_celsius temperature2_C temperature2_raw ]
  (* HV [0x88] *)
  ++ read_register (loop_read e i 2%nat) 0x88 loop_read_error HVvoltage_raw
  ++ [ scale HVvoltage_V HVvoltage_raw ]
  (* LV [0x8B] *)
  ++ read_register (loop_read e i 3%nat) 0x8B loop_read_error LVvoltage_raw
  ++ [ scale LVvoltage_V LVvoltage_raw ]
  (* I2 Current [0x8C] *)
  ++ read_register (loop_read e i 4%nat) 0x8C loop_read_error I2_current_raw
  ++ [ scale I2_current_A I2_current_raw ]
  (* I1 Current [0x90] *)
  ++ read_register (loop_read e i 5%nat) 0x90 loop_read_error I1_current_raw
  ++ [ scale I1_current_A I1_current_raw ]
  (* I1 CNT [0xCD] *)
  ++ read_register (loop_read e i 6%nat) 0xCD loop_read_error I1_CNT
  (* Status [0x79] *)
  ++ read_register (loop_read e i 7%nat) 0x79 loop_read_error DUT_Status.

(** The report line, the CSV log and the pause.  [fp] is the local
    [FILE *fp], which holds what [fopen] returned.
<<
    fprintf(stderr, REPORT, ...);
    first_timeA ++;
    fp = fopen("outputA.csv", "a");
    if(first_timeA == 1)
        fprintf(fp, HEADER);
    fprintf(fp, ROW, ...);
    fclose(fp);
    Sleep(500);
>> *)
Definition report_and_log (e : env) (i : nat) : list stmt :=
  let fp := log_open e i in
  let write_row :=
    fprintf_file fp csv_row_format record_args
      (block [ call (fclose_call fp); call (Sleep_call 500) ]) in
  [ fprintf (fun _ => stderr) report_format record_args;
    assign_int first_timeA (fun st => ints st first_timeA + 1);
    call (fopen_call "outputA.csv" "a");
    (fun st => if ints st first_timeA =? 1
               then fprintf_file fp csv_header (fun _ => []) write_row st
               else write_row st) ].

Definition loop_body (e : env) (i : nat) : stmt :=
  block (poll_registers e i ++ report_and_log e i).

(** The state after the first [n] passes of the loop, or after those the
    process lived to make. *)
Fixpoint run_loop (e : env) (n : nat) (st : state) : state :=
  match n with
  | O => st
  | S k =>
      let st' := run_loop e k st in
      if stopped st' then st' else loop_body e k st'
  end.

(** *** [main] *)

(** Objects of static storage start at zero; the two arrays of [main] hold
    whatever the stack held. *)
Definition initial (e : env) : state :=
  mkState (fun i => to_BYTE (stack_garbage e i))
          (fun i => to_BYTE (stack_garbage e (61 + i)))
          0 (fun _ => 0) (fun _ => S754_zero false) [] false.

(** [fprintf(stderr, MSG); SMBus_Close(m_hidSmbus);
     fprintf(stderr,"Enter to exit..."); getchar(); return -1;] *)
Definition fatal (message : string) : list stmt :=
  [ fprintf (fun _ => stderr) message (fun _ => []);
    call SMBus_Close_call;
    fprintf (fun _ => stderr) "Enter to exit..." (fun _ => []);
    call getchar_call ].

(** [main] never leaves [while(1)], so it is observed after a given number
    of passes: either it has returned, or it is still polling, or the
    process was ended in a write to the log. *)
Inductive outcome : Type :=
| Returned (code : Z) (st : state)
| Polling (st : state)
| Crashed (st : state).

Definition final_state (o : outcome) : state :=
  match o with
  | Returned _ st | Polling st | Crashed st => st
  end.

Definition main (e : env) (passes : nat) : outcome :=
  let st := call SMBus_Open_call (initial e) in
  if negb (open_result e =? 0) then
    Returned (-1) (block (fatal (CRLF ++ "ERROR: Could not open device." ++ CRLF)) st)
  else
    let st :=
      block [ fprintf (fun _ => stderr)
                      (CRLF ++ "Device successfully opened." ++ CRLF) (fun _ => []);
              call (SMBus_Configure_call BITRATE_HZ ACK_ADDRESS AUTO_RESPOND
                      WRITE_TIMEOUT_MS READ_TIMEOUT_MS SCL_LOW_TIMEOUT
                      TRANSFER_RETRIES RESPONSE_TIMEOUT_MS) ] st in
    if negb (configure_result e =? 0) then
      Returned (-1) (block (fatal ("ERROR: Could not configure device." ++ CRLF)) st)
    else
      let st :=
        block (fprintf (fun _ => stderr)
                       ("Device successfully configured." ++ CRLF) (fun _ => [])
               :: startup e) st in
      let st := run_loop e passes st in
      if stopped st then Crashed st else Polling st.

End Program.

Import CInt Float32 Program.

(** ** Vocabulary of the statements *)

Module Observations.

(** *** Checking a predicate on an interval of integers *)

Fixpoint check_range (n : nat) (lo : Z) (P : Z -> bool) : bool :=
  match n with
  | O => true
  | S k => P lo && check_range k (lo + 1) P
  end.

(** [f] is finite and denotes the rational [q]. *)
Definition denotes (f : float32) (q : Q) : bool :=
  is_finite f && Qeq_bool (value f) q.

(** A float as the conversion of a small integer produces it: zero, or a
    full 24-bit mantissa with a moderate exponent. *)
Definition normal (f : float32) : bool :=
  match f with
  | S754_zero _ => true
  | S754_finite _ m e =>
      Pos.eqb (digits2_pos m) 24 && (-140 <=? e) && (e <=? 100)
  | S754_infinity _ | S754_nan => false
  end.

(** Division by 32 done on the exponent. *)
Definition div32 (f : float32) : float32 :=
  match f with
  | S754_finite s m e => S754_finite s m (e - 5)
  | _ => f
  end.

(** Both scalings are exact on the [INT16] [X_raw]. *)
Definition scaling_exact (X_raw : Z) : bool :=
  let f := of_int X_raw in
  normal f
  && denotes (div32 f) (X_raw # 32)
  && denotes (sub (div32 f) (of_int 40)) ((X_raw # 32) - 40).

(** The 16-bit word read as two's complement. *)
Definition signed16 (raw : Z) : Z :=
  if raw <=? 32767 then raw else raw - 65536.

(** *** What is left in the shared buffer *)

(** [buffer[0]] and [buffer[1]] after a pass has zeroed them and then
    received the replies [rs], oldest first: the bytes of the latest reply
    that carried any. *)
Definition buffer0_after (rs : list read_reply) : Z :=
  fold_left (fun b r => match r with Bytes lo _ => to_BYTE lo | Failure => b end)
            rs 0.

Definition buffer1_after (rs : list read_reply) : Z :=
  fold_left (fun b r => match r with Bytes _ hi => to_BYTE hi | Failure => b end)
            rs 0.

(** The [INT16] a register variable receives then: the word with
    [buffer[1]] as its high byte and [buffer[0]] as its low byte, read as
    two's complement. *)
Definition raw_after (rs : list read_reply) : Z :=
  signed16 (256 * buffer1_after rs + buffer0_after rs).

(** Replies [0..j] of pass [i]. *)
Definition replies (e : env) (i j : nat) : list read_reply :=
  map (loop_read e i) (seq 0 (S j)).

(** *** The calls of one pass *)

(** The registers of a pass, in program order: temperature 1 and 2, high
    and low voltage, current 2 and 1, the current-1 count, the status. *)
Definition registers : list Z := [0x8D; 0x8E; 0x88; 0x8B; 0x8C; 0x90; 0xCD; 0x79].

Definition read_events (reply : read_reply) (reg : Z) (errfmt : string)
  : list event :=
  SMBus_Read_call LVDC4816_SLAVE_ADDRESS0x60_W 2 1 reg
  :: match reply with
     | Bytes _ _ => []
     | Failure => [fprintf_call stderr errfmt [ArgInt reg]]
     end.

Definition poll_events (e : env) (i : nat) : list event :=
  List.concat (map (fun jr => read_events (loop_read e i (fst jr)) (snd jr)
                                     loop_read_error)
              (combine (seq 0 8) registers)).

(** The record of pass [i], as the arguments of its two print calls. *)
Definition pass_args (e : env) (i : nat) : list printf_arg :=
  [ ArgDouble (scale32 (raw_after (replies e i 2)));
    ArgDouble (scale32 (raw_after (replies e i 3)));
    ArgDouble (scale32 (raw_after (replies e i 5)));
    ArgDouble (scale32 (raw_after (replies e i 4)));
    ArgDouble (scale32_minus40 (raw_after (replies e i 0)));
    ArgDouble (scale32_minus40 (raw_after (replies e i 1)));
    ArgInt (raw_after (replies e i 6));
    ArgInt (raw_after (replies e i 7)) ].

(** The log calls of a pass that found [first_timeA] at [count]: with a
    stream, the header if the counter reaches one, the row, the close and
    the pause; with the null pointer, the first of these writes and
    nothing after it. *)
Definition log_events (fp : FILEp) (count : Z) (args : list printf_arg)
  : list event :=
  fopen_call "outputA.csv" "a"
  :: match fp with
     | Some _ =>
         (if to_int (count + 1) =? 1
          then [fprintf_call (to_file fp) csv_header []] else [])
         ++ [ fprintf_call (to_file fp) csv_row_format args;
              fclose_call fp; Sleep_call 500 ]
     | None =>
         [ if to_int (count + 1) =? 1
           then fprintf_call (to_file None) csv_header []
           else fprintf_call (to_file None) csv_row_format args ]
     end.

Definition pass_events (e : env) (i : nat) (count : Z) : list event :=
  poll_events e i
  ++ fprintf_call stderr report_format (pass_args e i)
  :: log_events (log_open e i) count (pass_args e i).

(** The calls of the first [n] passes of a run that entered the loop with
    [first_timeA] at zero. *)
Definition passes_events (e : env) (n : nat) : list event :=
  List.concat (map (fun k => pass_events e k (to_int (Z.of_nat k))) (seq 0 n)).

(** Pass [k] cannot open its log. *)
Definition log_fails (e : env) (k : nat) : bool :=
  match log_open e k with
  | None => true
  | Some _ => false
  end.

(** The process does not live to begin pass [n]: one of the passes before
    it could not open its log. *)
Definition ended_before (e : env) (n : nat) : bool :=
  existsb (log_fails e) (seq 0 n).

(** The passes begun by a process that is observed for [n] passes. *)
Fixpoint passes_made (e : env) (n : nat) : nat :=
  match n with
  | O => O
  | S k => if ended_before e k then passes_made e k else S k
  end.

(** The state of pass [i] once its eight registers are read. *)
Definition polled (e : env) (i : nat) (st : state) : state :=
  block (poll_registers e i) st.

(** The state in which a run that opened and configured the adapter
    enters the loop. *)
Definition before_loop (e : env) : state := final_state (main e 0).

(** *** Reading a trace *)

(** Register addresses of the [SMBus_Read] calls, in order. *)
Fixpoint reads_of (tr : list event) : list Z :=
  match tr with
  | [] => []
  | SMBus_Read_call _ _ _ reg :: tr' => reg :: reads_of tr'
  | _ :: tr' => reads_of tr'
  end.

Definition is_file_call (ev : event) : bool :=
  match ev with
  | fopen_call _ _ | fclose_call _ | fprintf_call (to_file _) _ _ => true
  | _ => false
  end.

(** The calls that touch the log file. *)
Definition file_calls (tr : list event) : list event := filter is_file_call tr.

(** Format strings of the [fprintf] calls that reach a file, in order:
    those made on a stream, not on the null pointer. *)
Fixpoint file_writes (tr : list event) : list string :=
  match tr with
  | [] => []
  | fprintf_call (to_file (Some _)) fmt _ :: tr' => fmt :: file_writes tr'
  | _ :: tr' => file_writes tr'
  end.

(** The lines those calls print. *)
Fixpoint file_lines (tr : list event) : list string :=
  match tr with
  | [] => []
  | fprintf_call (to_file (Some _)) fmt args :: tr' =>
      render fmt args :: file_lines tr'
  | _ :: tr' => file_lines tr'
  end.

Definition header_count (tr : list event) : nat :=
  count_occ string_dec (file_writes tr) csv_header.

Definition row_count (tr : list event) : nat :=
  count_occ string_dec (file_writes tr) csv_row_format.

(** Position of the first occurrence of a call that satisfies [p]. *)
Fixpoint first_index (p : event -> bool) (tr : list event) : option nat :=
  match tr with
  | [] => None
  | ev :: tr' => if p ev then Some O else option_map S (first_index p tr')
  end.

Definition is_getchar (ev : event) : bool :=
  match ev with getchar_call => true | _ => false end.

Definition is_close (ev : event) : bool :=
  match ev with SMBus_Close_call => true | _ => false end.

(** The calls a statement adds to the trace. *)
Definition emitted (c : stmt) (st : state) : list event :=
  skipn (List.length (trace st)) (trace (c st)).

(** An environment for the end-to-end example: everything succeeds, and
    every pass reads the same eight words. *)
Definition example_env : env :=
  {| open_result := 0;
     configure_result := 0;
     stack_garbage := fun _ => 0;
     startup_read := fun _ => Bytes 0x00 0x4B;
     startup_write := fun _ => 0;
     loop_read := fun _ j =>
       nth j [ Bytes 0x00 0x05; Bytes 0x00 0x05; Bytes 0x00 0x14;
               Bytes 0x00 0x0A; Bytes 0x00 0x02; Bytes 0x00 0x03;
               Bytes 0x07 0x00; Bytes 0x00 0x00 ] Failure;
     log_open := fun _ => Some 1%nat;
     undefined_cast := fun _ _ => 0 |}.

(** The same device behind a bus on which no read ever succeeds and the
    log cannot be opened. *)
Definition silent_env : env :=
  {| open_result := 0;
     configure_result := 0;
     stack_garbage := fun _ => 0xAA;
     startup_read := fun _ => Failure;
     startup_write := fun _ => 1;
     loop_read := fun _ _ => Failure;
     log_open := fun _ => None;
     undefined_cast := fun _ _ => 0 |}.

(** A bus on which no read ever succeeds, with a log that opens. *)
Definition dead_bus_env : env :=
  {| open_result := 0;
     configure_result := 0;
     stack_garbage := fun _ => 0xAA;
     startup_read := fun _ => Failure;
     startup_write := fun _ => 1;
     loop_read := fun _ _ => Failure;
     log_open := fun _ => Some 1%nat;
     undefined_cast := fun _ _ => 0 |}.

(** The example device, with a build in which a conversion out of range
    gives the largest value of the target type. *)
Definition saturating_env : env :=
  {| open_result := 0;
     configure_result := 0;
     stack_garbage := fun _ => 0;
     startup_read := fun _ => Bytes 0x00 0x4B;
     startup_write := fun _ => 0;
     loop_read := loop_read example_env;
     log_open := fun _ => Some 1%nat;
     undefined_cast := fun w _ => 2 ^ w - 1 |}.

(** The example device with a log that opens in the first two passes and
    not in the third. *)
Definition disk_full_env : env :=
  {| open_result := 0;
     configure_result := 0;
     stack_garbage := fun _ => 0;
     startup_read := fun _ => Bytes 0x00 0x4B;
     startup_write := fun _ => 0;
     loop_read := loop_read example_env;
     log_open := fun i => if Nat.ltb i 2 then Some 1%nat else None;
     undefined_cast := fun _ _ => 0 |}.

(** No adapter is plugged in. *)
Definition unplugged_env : env :=
  {| open_result := 1;
     configure_result := 0;
     stack_garbage := fun _ => 0;
     startup_read := fun _ => Failure;
     startup_write := fun _ => 1;
     loop_read := fun _ _ => Failure;
     log_open := fun _ => None;
     undefined_cast := fun _ _ => 0 |}.

End Observations.

Import Observations.

(** ** Further observations on traces *)

Module Coverage.

(** The calls that go to the adapter. *)
Definition is_bus_call (ev : event) : bool :=
  match ev with
  | SMBus_Open_call | SMBus_Configure_call _ _ _ _ _ _ _ _ | SMBus_Close_call
  | SMBus_Read_call _ _ _ _ | SMBus_Write_call _ _ _ => true
  | _ => false
  end.

Definition bus_calls (tr : list event) : list event := filter is_bus_call tr.

Definition is_write (ev : event) : bool :=
  match ev with SMBus_Write_call _ _ _ => true | _ => false end.

Definition is_sleep (ev : event) : bool :=
  match ev with Sleep_call _ => true | _ => false end.

(** The kinds of call made between the configuration and the loop. *)
Definition startup_kind (ev : event) : bool :=
  match ev with
  | SMBus_Open_call | SMBus_Configure_call _ _ _ _ _ _ _ _
  | SMBus_Read_call _ _ _ _ | SMBus_Write_call _ _ _
  | fprintf_call stderr _ _ => true
  | _ => false
  end.

(** The kinds of call a pass of the loop makes. *)
Definition pass_kind (ev : event) : bool :=
  match ev with
  | SMBus_Read_call _ _ _ _ | fprintf_call _ _ _ | fopen_call _ _
  | fclose_call _ | Sleep_call _ => true
  | _ => false
  end.

(** Every read is addressed to the converter at 0xC8, asks for two bytes
    and sends a one-byte register address. *)
Definition well_addressed (ev : event) : bool :=
  match ev with
  | SMBus_Read_call slave len size _ =>
      (slave =? 0xC8) && (len =? 2) && (size =? 1)
  | _ => true
  end.

(** The error line of a failed read of the loop. *)
Definition is_read_error (ev : event) : bool :=
  match ev with
  | fprintf_call stderr fmt _ => String.eqb fmt loop_read_error
  | _ => false
  end.

Definition is_failure (r : read_reply) : bool :=
  match r with Failure => true | Bytes _ _ => false end.

(** What the program prints on [stderr], call by call. *)
Fixpoint stderr_lines (tr : list event) : list string :=
  match tr with
  | [] => []
  | fprintf_call stderr fmt args :: tr' => render fmt args :: stderr_lines tr'
  | _ :: tr' => stderr_lines tr'
  end.

(** The rows of the first [n] passes, as text. *)
Definition rows (e : env) (n : nat) : list string :=
  map (fun k => render csv_row_format (pass_args e k)) (seq 0 n).

(** [buffer[0]] and [buffer[1]] after a read, given what they held. *)
Definition bytes_after (r : read_reply) (held : Z * Z) : Z * Z :=
  match r with
  | Bytes lo hi => (to_BYTE lo, to_BYTE hi)
  | Failure => held
  end.

(** The word the program assembles from these two bytes. *)
Definition word (held : Z * Z) : Z := assemble (fst held) (snd held).

(** The values of the [HWOCP=%2.2f] lines, in order. *)
Fixpoint ocp_reports (tr : list event) : list float32 :=
  match tr with
  | [] => []
  | fprintf_call stderr fmt [ArgDouble f] :: tr' =>
      if String.eqb fmt ("HWOCP=%2.2f" ++ CRLF) then f :: ocp_reports tr'
      else ocp_reports tr'
  | _ :: tr' => ocp_reports tr'
  end.

Definition is_stderr (ev : event) : bool :=
  match ev with fprintf_call stderr _ _ => true | _ => false end.

(** How many of the three reads and two writes before the loop fail. *)
Definition startup_failures (e : env) : nat :=
  Nat.b2n (is_failure (startup_read e 0%nat))
  + Nat.b2n (is_failure (startup_read e 1%nat))
  + Nat.b2n (is_failure (startup_read e 2%nat))
  + Nat.b2n (negb (startup_write e 0%nat =? 0))
  + Nat.b2n (negb (startup_write e 1%nat =? 0)).

(** A converter whose count register reads 0xFFFF and whose status register
    reads 0x8000. *)
Definition overflow_env : env :=
  {| open_result := 0;
     configure_result := 0;
     stack_garbage := fun _ => 0;
     startup_read := fun _ => Bytes 0x00 0x4B;
     startup_write := fun _ => 0;
     loop_read := fun _ j =>
       nth j [ Bytes 0x00 0x05; Bytes 0x00 0x05; Bytes 0x00 0x14;
               Bytes 0x00 0x0A; Bytes 0x00 0x02; Bytes 0x00 0x03;
               Bytes 0xFF 0xFF; Bytes 0x00 0x80 ] Failure;
     log_open := fun _ => Some 1%nat;
     undefined_cast := fun _ _ => 0 |}.

End Coverage.

Import Coverage.

(** * Properties *)

(** ** Integer conversions *)

Lemma to_INT16_small (z : Z) : -32768 <= z <= 32767 -> to_INT16 z = z.
Proof.
  intros H. unfold to_INT16, wrap_signed.
  change (2 ^ (16 - 1)) with 32768. change (2 ^ 16) with 65536.
  rewrite Z.mod_small by lia. lia.
Qed.

Lemma to_INT16_range (z : Z) : -32768 <= to_INT16 z <= 32767.
Proof.
  unfold to_INT16, wrap_signed.
  change (2 ^ (16 - 1)) with 32768. change (2 ^ 16) with 65536.
  pose proof (Z.mod_pos_bound (z + 32768) 65536). lia.
Qed.

Lemma to_INT16_word (raw : Z) :
  0 <= raw <= 65535 -> to_INT16 raw = signed16 raw.
Proof.
  intros H. unfold to_INT16, wrap_signed, signed16.
  change (2 ^ (16 - 1)) with 32768. change (2 ^ 16) with 65536.
  destruct (Z.leb_spec raw 32767).
  - rewrite Z.mod_small by lia. lia.
  - replace (raw + 32768) with (raw - 32768 + 1 * 65536) by lia.
    rewrite Z.mod_add by lia. rewrite Z.mod_small by lia. lia.
Qed.

Lemma land_0xFFFF (z : Z) : Z.land z 0xFFFF = z mod 65536.
Proof. change 0xFFFF with (Z.ones 16). rewrite Z.land_ones by lia. reflexivity. Qed.

(** Masking an [INT16] with [0xFFFF] and storing it back changes nothing. *)
Lemma store_raw_to_INT16 (v : Z) : store_raw v = to_INT16 v.
Proof.
  unfold store_raw. rewrite land_0xFFFF.
  unfold to_INT16, wrap_signed.
  change (2 ^ (16 - 1)) with 32768. change (2 ^ 16) with 65536.
  rewrite Z.add_mod_idemp_l by lia.
  pose proof (Z.mod_pos_bound (v + 32768) 65536 ltac:(lia)) as Hm.
  set (m := (v + 32768) mod 65536) in *.
  replace (m - 32768 + 32768) with m by lia.
  rewrite Z.mod_small by lia. reflexivity.
Qed.

Lemma store_raw_word (raw : Z) :
  0 <= raw <= 65535 -> store_raw raw = signed16 raw.
Proof. intros H. rewrite store_raw_to_INT16. apply to_INT16_word, H. Qed.

Lemma signed16_range (raw : Z) :
  0 <= raw <= 65535 -> -32768 <= signed16 raw <= 32767.
Proof. unfold signed16. destruct (Z.leb_spec raw 32767); lia. Qed.

Lemma assemble_sum (lo hi : Z) :
  0 <= lo <= 255 -> 0 <= hi <= 255 -> assemble lo hi = hi * 256 + lo.
Proof.
  intros Hlo Hhi. unfold assemble.
  rewrite Z.shiftl_mul_pow2 by lia. change (2 ^ 8) with 256.
  assert (Hland : Z.land (hi * 256) lo = 0).
  { apply Z.bits_inj'; intros n Hn. rewrite Z.land_spec, Z.bits_0.
    destruct (Z.ltb_spec n 8).
    - change 256 with (2 ^ 8). rewrite Z.mul_pow2_bits_low by lia. reflexivity.
    - replace lo with (lo mod 2 ^ 8)
        by (apply Z.mod_small; change (2 ^ 8) with 256; lia).
      rewrite Z.mod_pow2_bits_high by lia. apply andb_false_r. }
  rewrite <- Z.lxor_lor by exact Hland.
  symmetry. apply Z.add_nocarry_lxor, Hland.
Qed.

Lemma to_BYTE_range (z : Z) : 0 <= to_BYTE z <= 255.
Proof.
  unfold to_BYTE, wrap_unsigned. change (2 ^ 8) with 256.
  pose proof (Z.mod_pos_bound z 256). lia.
Qed.

Lemma to_BYTE_byte (b : Z) : 0 <= b <= 255 -> to_BYTE b = b.
Proof.
  intros H. unfold to_BYTE, wrap_unsigned. change (2 ^ 8) with 256.
  apply Z.mod_small. lia.
Qed.

Lemma buffer0_after_range (rs : list read_reply) : 0 <= buffer0_after rs <= 255.
Proof.
  unfold buffer0_after.
  assert (Hgen : forall b,
             0 <= b <= 255 ->
             0 <= fold_left (fun b r => match r with
                                        | Bytes lo _ => to_BYTE lo
                                        | Failure => b
                                        end) rs b <= 255).
  { induction rs as [|r rs IH]; intros b Hb; [exact Hb|].
    cbn [fold_left]. apply IH. destruct r; [apply to_BYTE_range | exact Hb]. }
  apply Hgen. lia.
Qed.

Lemma buffer1_after_range (rs : list read_reply) : 0 <= buffer1_after rs <= 255.
Proof.
  unfold buffer1_after.
  assert (Hgen : forall b,
             0 <= b <= 255 ->
             0 <= fold_left (fun b r => match r with
                                        | Bytes _ hi => to_BYTE hi
                                        | Failure => b
                                        end) rs b <= 255).
  { induction rs as [|r rs IH]; intros b Hb; [exact Hb|].
    cbn [fold_left]. apply IH. destruct r; [apply to_BYTE_range | exact Hb]. }
  apply Hgen. lia.
Qed.

(** What the two assignments of the source store is the word of the two
    bytes, read as two's complement. *)
Lemma raw_after_store (rs : list read_reply) :
  store_raw (assemble (buffer0_after rs) (buffer1_after rs)) = raw_after rs.
Proof.
  pose proof (buffer0_after_range rs) as H0.
  pose proof (buffer1_after_range rs) as H1.
  unfold raw_after. rewrite (assemble_sum _ _ H0 H1), store_raw_word by lia.
  f_equal. lia.
Qed.

(** ** Exhaustive checks over the 16-bit words *)

Lemma check_range_sound (P : Z -> bool) (n : nat) :
  forall lo, check_range n lo P = true ->
  forall z, lo <= z < lo + Z.of_nat n -> P z = true.
Proof.
  induction n as [|n IH]; intros lo Hall z Hz.
  - simpl in Hz. lia.
  - simpl in Hall. apply andb_prop in Hall as [Hlo Hrest].
    destruct (Z.eq_dec z lo) as [->|Hne]; [exact Hlo|].
    apply (IH (lo + 1) Hrest). lia.
Qed.

Lemma denotes_spec (f : float32) (q : Q) :
  denotes f q = true -> is_finite f = true /\ (value f == q)%Q.
Proof.
  unfold denotes. intros H. apply andb_prop in H as [Hf Hq].
  split; [exact Hf | apply Qeq_bool_iff, Hq].
Qed.

(** Dividing a normal float by 32 only moves its exponent. *)

Lemma div_eucl_shiftl_24 (m : positive) :
  Z.div_eucl (Z.shiftl (Zpos m) 24) 8388608 = (Zpos m~0, 0).
Proof.
  pose proof (Z.div_eucl_eq (Z.shiftl (Zpos m) 24) 8388608 ltac:(discriminate)) as H.
  pose proof (Z.mod_pos_bound (Z.shiftl (Zpos m) 24) 8388608 ltac:(reflexivity)) as Hb.
  unfold Z.modulo in Hb.
  destruct (Z.div_eucl (Z.shiftl (Z.pos m) 24) 8388608) as [q r].
  rewrite Z.shiftl_mul_pow2 in H by lia. change (2 ^ 24) with 16777216 in H.
  f_equal; lia.
Qed.

Lemma div_32_finite (s : bool) (m : positive) (e : Z) :
  digits2_pos m = 24%positive -> -140 <= e <= 100 ->
  div (S754_finite s m e) (of_int 32) = S754_finite s m (e - 5).
Proof.
  intros Hd He.
  change (of_int 32) with (S754_finite false 8388608 (-18)).
  unfold div, SFdiv, SFdiv_core_binary.
  cbn [Zdigits2 digits2_pos Pos.succ]. rewrite Hd.
  replace (Z.min (fexp prec emax (24 + e - (24 + -18))) (e - -18)) with (e - 6)
    by (unfold fexp, emin, prec, emax; lia).
  replace (e - -18 - (e - 6)) with 24 by lia.
  rewrite div_eucl_shiftl_24.
  change (new_location 8388608 0) with loc_Exact. rewrite xorb_false_r.
  unfold binary_round_aux, shr_fexp.
  cbn [Zdigits2 digits2_pos shr_record_of_loc]. rewrite Hd.
  replace (fexp prec emax (Z.pos (Pos.succ 24) + (e - 6)) - (e - 6)) with 1
    by (unfold fexp, emin, prec, emax; lia).
  cbn [shr iter_pos shr_1 orb shr_m loc_of_shr_record round_nearest_even
       shr_record_of_loc Zdigits2].
  rewrite Hd.
  replace (fexp prec emax (24 + (e - 6 + 1)) - (e - 6 + 1)) with 0
    by (unfold fexp, emin, prec, emax; lia).
  cbn [shr shr_m].
  replace (e - 6 + 1 <=? emax - prec) with true
    by (symmetry; apply Z.leb_le; unfold prec, emax; lia).
  f_equal. lia.
Qed.

Lemma div_32_normal (f : float32) :
  normal f = true -> div f (of_int 32) = div32 f.
Proof.
  destruct f as [s|s| |s m e]; cbn [normal div32]; try discriminate.
  - intros _. destruct s; reflexivity.
  - intros H. apply andb_prop in H as [H He2]. apply andb_prop in H as [Hd He1].
    apply Pos.eqb_eq in Hd. apply Z.leb_le in He1, He2.
    apply div_32_finite; [exact Hd | lia].
Qed.

Lemma scaling_exact_all :
  check_range (Z.to_nat 65536) (-32768) scaling_exact = true.
Proof. vm_compute. reflexivity. Qed.

Lemma scaling_exact_INT16 (X_raw : Z) :
  -32768 <= X_raw <= 32767 ->
  scale32 X_raw = div32 (of_int X_raw)
  /\ denotes (scale32 X_raw) (X_raw # 32) = true
  /\ denotes (scale32_minus40 X_raw) ((X_raw # 32) - 40) = true.
Proof.
  intros H.
  assert (Hx : scaling_exact X_raw = true).
  { apply (check_range_sound _ _ _ scaling_exact_all). rewrite Z2Nat.id; lia. }
  unfold scaling_exact in Hx.
  apply andb_prop in Hx as [Hx H40]. apply andb_prop in Hx as [Hn H32].
  unfold scale32_minus40, scale32. rewrite (div_32_normal _ Hn).
  split; [reflexivity|]. split; assumption.
Qed.

Lemma scale32_value (X_raw : Z) :
  -32768 <= X_raw <= 32767 ->
  is_finite (scale32 X_raw) = true /\ (value (scale32 X_raw) == X_raw # 32)%Q.
Proof.
  intros H. destruct (scaling_exact_INT16 X_raw H) as (_ & Hx & _).
  apply denotes_spec, Hx.
Qed.

Lemma scale32_minus40_value (X_raw : Z) :
  -32768 <= X_raw <= 32767 ->
  is_finite (scale32_minus40 X_raw) = true
  /\ (value (scale32_minus40 X_raw) == (X_raw # 32) - 40)%Q.
Proof.
  intros H. destruct (scaling_exact_INT16 X_raw H) as (_ & _ & Hx).
  apply denotes_spec, Hx.
Qed.

(** ** The decoders *)

(** C1 (amended).  For every 16-bit register word [raw] in [0, 65535], the
    voltage/current decode (high voltage, low voltage, current 1, current 2
    and the OCP read) yields exactly [s / 32], where [s] is [raw] read as a
    two's-complement [INT16]: [raw / 32] up to 32767, [(raw - 65536) / 32]
    from 32768 on. *)
Theorem decode_voltage_or_current_signed (raw : Z) :
  0 <= raw <= 65535 ->
  is_finite (decode_voltage_or_current raw) = true
  /\ (value (decode_voltage_or_current raw)
      == (if raw <=? 32767 then raw else raw - 65536) # 32)%Q.
Proof.
  intros H. unfold decode_voltage_or_current.
  rewrite (store_raw_word raw H).
  apply scale32_value, signed16_range, H.
Qed.

(** The example of the spec: the word 3200 decodes to 100.00. *)
Lemma decode_voltage_or_current_3200 :
  0 <= 3200 <= 65535
  /\ is_finite (decode_voltage_or_current 3200) = true
  /\ (value (decode_voltage_or_current 3200)
      == (if 3200 <=? 32767 then 3200 else 3200 - 65536) # 32)%Q.
Proof.
  split; [lia | apply (decode_voltage_or_current_signed 3200); lia].
Defined.

(** C1 as written fails on the upper half of the words: 32768 does not
    decode to 1024 but to -1024. *)
Lemma decode_voltage_or_current_32768 :
  ~ (value (decode_voltage_or_current 32768) == 32768 # 32)%Q
  /\ (value (decode_voltage_or_current 32768) == - (1024 # 1))%Q.
Proof. split; [intros H; vm_compute in H; discriminate | vm_compute; reflexivity]. Qed.

(** C2 (amended).  For every 16-bit register word [raw], the temperature
    decode yields exactly [s / 32 - 40], where [s] is [raw] read as a
    two's-complement [INT16]. *)
Theorem decode_temperature_signed (raw : Z) :
  0 <= raw <= 65535 ->
  is_finite (decode_temperature raw) = true
  /\ (value (decode_temperature raw)
      == ((if raw <=? 32767 then raw else raw - 65536) # 32) - 40)%Q.
Proof.
  intros H. unfold decode_temperature.
  rewrite (store_raw_word raw H).
  apply scale32_minus40_value, signed16_range, H.
Qed.

(** The examples of the spec: 2560 is 40 degrees, 1280 is 0 degrees. *)
Lemma decode_temperature_2560_1280 :
  (value (decode_temperature 2560) == 40)%Q
  /\ (value (decode_temperature 1280) == 0)%Q.
Proof.
  split.
  - destruct (decode_temperature_signed 2560) as [_ H]; [lia|].
    rewrite H. reflexivity.
  - destruct (decode_temperature_signed 1280) as [_ H]; [lia|].
    rewrite H. reflexivity.
Defined.

(** C2 as written fails on the upper half of the words: 32768 is not 984
    degrees but -1064. *)
Lemma decode_temperature_32768 :
  ~ (value (decode_temperature 32768) == (32768 # 32) - 40)%Q
  /\ (value (decode_temperature 32768) == - (1064 # 1))%Q.
Proof. split; [intros H; vm_compute in H; discriminate | vm_compute; reflexivity]. Qed.

(** ** Symbolic execution of statements *)

Ltac state_simpl :=
  cbn [fold_left block app regLength targetAddress ints floats trace buffer
       assign_regLength assign_targetAddress assign_buffer assign_int
       stopped assign_float call fprintf fprintf_file stop scale scale_celsius
       upd Nat.eqb negb fst snd].

(** ** The setpoint bytes *)

Lemma cast_unsigned_range (w : Z) (f : float32) (z : Z) :
  cast_unsigned w f = Some z -> 0 <= z < 2 ^ w.
Proof.
  unfold cast_unsigned. destruct (trunc f) as [t|]; [|discriminate].
  destruct (Z.leb_spec 0 t) as [Hlo|Hlo]; [|discriminate].
  destruct (Z.ltb_spec t (2 ^ w)) as [Hhi|Hhi]; [|discriminate].
  cbn [andb]. intros Heq. injection Heq as <-. lia.
Qed.

Lemma cast_unsigned_narrow (f : float32) (z : Z) :
  cast_unsigned 16 f = Some z -> z <= 255 -> cast_unsigned 8 f = Some z.
Proof.
  unfold cast_unsigned. destruct (trunc f) as [t|]; [|discriminate].
  destruct (Z.leb_spec 0 t) as [Hlo|Hlo]; [|discriminate].
  destruct (Z.ltb_spec t (2 ^ 16)) as [Hhi|Hhi]; [|discriminate].
  cbn [andb]. intros Heq Hz. injection Heq as <-.
  replace (t <? 2 ^ 8) with true
    by (symmetry; apply Z.ltb_lt; change (2 ^ 8) with 256; lia).
  reflexivity.
Qed.

Lemma land_0xff (z : Z) : Z.land z 0xff = z mod 256.
Proof. change 0xff with (Z.ones 8). rewrite Z.land_ones by lia. reflexivity. Qed.

Lemma to_BYTE_idem (z : Z) : to_BYTE (to_BYTE z) = to_BYTE z.
Proof. apply to_BYTE_byte, to_BYTE_range. Qed.

(** The low byte where the conversion is undefined: the build's byte. *)
Lemma ocp_low_byte_undefined (u : undefined_conversion) (amps : float32) :
  cast_unsigned 8 (ticks amps) = None ->
  ocp_low_byte u amps = to_BYTE (u 8 (ticks amps)).
Proof.
  intros H. unfold ocp_low_byte, cast_UINT8, cast. rewrite H, land_0xff.
  unfold to_BYTE, wrap_unsigned. change (2 ^ 8) with 256.
  rewrite !Z.mod_mod by lia. reflexivity.
Qed.

Lemma ocp_low_byte_defined (u : undefined_conversion) (amps : float32) (z : Z) :
  cast_unsigned 8 (ticks amps) = Some z -> ocp_low_byte u amps = z.
Proof.
  intros H. pose proof (cast_unsigned_range _ _ _ H) as Hz.
  change (2 ^ 8) with 256 in Hz.
  unfold ocp_low_byte, cast_UINT8, cast. rewrite H, land_0xff.
  rewrite Z.mod_small by lia. apply to_BYTE_byte. lia.
Qed.

Lemma ocp_high_byte_defined (u : undefined_conversion) (amps : float32) (z : Z) :
  cast_unsigned 16 (ticks amps) = Some z -> ocp_high_byte u amps = z / 256.
Proof.
  intros H. pose proof (cast_unsigned_range _ _ _ H) as Hz.
  change (2 ^ 16) with 65536 in Hz.
  assert (Hq : 0 <= z / 256 <= 255).
  { split; [apply Z.div_pos; lia | apply Z.lt_succ_r, Z.div_lt_upper_bound; lia]. }
  unfold ocp_high_byte, cast_UINT16, cast. rewrite H, land_0xff.
  rewrite Z.shiftr_div_pow2 by lia. change (2 ^ 8) with 256.
  rewrite (Z.mod_small (z / 256)) by lia.
  unfold to_UINT8, wrap_unsigned. change (2 ^ 8) with 256.
  rewrite Z.mod_small by lia. apply to_BYTE_byte. exact Hq.
Qed.

Lemma ticks_600 :
  cast_unsigned 8 (ticks (of_int 600)) = None
  /\ cast_unsigned 16 (ticks (of_int 600)) = Some 19200.
Proof. split; vm_compute; reflexivity. Qed.

Lemma encode_ocp_setpoint_600 (u : undefined_conversion) :
  encode_ocp_setpoint u (of_int 600)
  = (to_BYTE (u 8 (ticks (of_int 600))), 0x4B).
Proof.
  unfold encode_ocp_setpoint.
  rewrite (ocp_low_byte_undefined u _ (proj1 ticks_600)).
  rewrite (ocp_high_byte_defined u _ _ (proj2 ticks_600)). reflexivity.
Qed.

(** C8.  Every raw register value is assembled little-endian from the two
    transferred bytes as [(high_byte << 8) | low_byte]: the expression is
    [hi * 256 + lo], the [INT16] every register variable receives after a
    successful read carries exactly that 16-bit word, and the bytes
    0x34, 0x12 give 0x1234. *)
Theorem raw_value_little_endian (lo hi : Z) :
  0 <= lo <= 255 -> 0 <= hi <= 255 ->
  assemble lo hi = hi * 256 + lo
  /\ to_UINT16 (store_raw (assemble lo hi)) = assemble lo hi
  /\ (forall reg errfmt X_raw st,
        convert_to X_raw = to_INT16 ->
        ints (block (read_register (Bytes lo hi) reg errfmt X_raw) st) X_raw
        = store_raw (Z.lor (Z.shiftl hi 8) lo))
  /\ store_raw (assemble 0x34 0x12) = 0x1234.
Proof.
  intros Hlo Hhi. split; [apply assemble_sum; assumption|].
  split.
  { rewrite store_raw_to_INT16, (assemble_sum _ _ Hlo Hhi).
    unfold to_UINT16, wrap_unsigned, to_INT16, wrap_signed.
    change (2 ^ (16 - 1)) with 32768. change (2 ^ 16) with 65536.
    rewrite Zminus_mod_idemp_l.
    replace (hi * 256 + lo + 32768 - 32768) with (hi * 256 + lo) by lia.
    apply Z.mod_small. lia. }
  split; [|reflexivity].
  intros reg errfmt X_raw st HX.
  unfold read_register, block, if_SMBus_Read_fails, SMBus_Read.
  state_simpl. rewrite Z.eqb_refl. state_simpl.
  destruct (int_var_eq_dec X_raw X_raw) as [_|Hne]; [|congruence].
  rewrite HX. unfold store_raw, assemble, to_BYTE, wrap_unsigned.
  change (2 ^ 8) with 256. rewrite !Z.mod_small by lia. reflexivity.
Qed.

(** The example of the spec. *)
Lemma raw_value_0x1234 :
  assemble 0x34 0x12 = 0x1234 /\ store_raw (assemble 0x34 0x12) = 0x1234.
Proof.
  destruct (raw_value_little_endian 0x34 0x12) as (H1 & _ & _ & H4); [lia|lia|].
  split; [rewrite H1; reflexivity | exact H4].
Defined.

Lemma block_app (l1 l2 : list stmt) (st : state) :
  block (l1 ++ l2) st = block l2 (block l1 st).
Proof. unfold block. apply fold_left_app. Qed.

Lemma block_cons (c : stmt) (l : list stmt) (st : state) :
  block (c :: l) st = block l (c st).
Proof. reflexivity. Qed.

Lemma int_var_eq_dec_refl (x : int_var) (A : Type) (a b : A) :
  (if int_var_eq_dec x x then a else b) = a.
Proof. destruct (int_var_eq_dec x x); congruence. Qed.

Section ReadRegister.

Variables (reply : read_reply) (reg : Z) (errfmt : string) (X_raw : int_var).
Variable st : state.

Lemma read_register_buffer0 :
  buffer (block (read_register reply reg errfmt X_raw) st) 0%nat
  = match reply with Bytes lo _ => to_BYTE lo | Failure => buffer st 0%nat end.
Proof. destruct reply; reflexivity. Qed.

Lemma read_register_buffer1 :
  buffer (block (read_register reply reg errfmt X_raw) st) 1%nat
  = match reply with Bytes _ hi => to_BYTE hi | Failure => buffer st 1%nat end.
Proof. destruct reply; reflexivity. Qed.

Lemma read_register_floats : floats (block (read_register reply reg errfmt X_raw) st) = floats st.
Proof. destruct reply; reflexivity. Qed.

Lemma read_register_trace :
  trace (block (read_register reply reg errfmt X_raw) st) = trace st ++ read_events reply (to_BYTE reg) errfmt.
Proof.
  destruct reply; [reflexivity|].
  unfold read_register, block, if_SMBus_Read_fails, SMBus_Read, read_events.
  state_simpl. change (-1 =? to_UINT16 2) with false.
  state_simpl. rewrite <- app_assoc. reflexivity.
Qed.

Lemma read_register_stopped :
  stopped (block (read_register reply reg errfmt X_raw) st) = stopped st.
Proof. destruct reply; reflexivity. Qed.

Lemma read_register_ints (Y : int_var) :
  ints (block (read_register reply reg errfmt X_raw) st) Y
  = if int_var_eq_dec Y X_raw
    then convert_to X_raw
           (Z.land (convert_to X_raw
                      (assemble (buffer (block (read_register reply reg errfmt X_raw) st) 0%nat) (buffer (block (read_register reply reg errfmt X_raw) st) 1%nat))) 0xFFFF)
    else ints st Y.
Proof.
  unfold read_register, block, if_SMBus_Read_fails, SMBus_Read.
  destruct reply; state_simpl.
  all: destruct (int_var_eq_dec Y X_raw) as [->|Hne];
    [rewrite int_var_eq_dec_refl; reflexivity | reflexivity].
Qed.

End ReadRegister.

Lemma zero_buffer_0 (st : state) :
  buffer (block [assign_buffer 0 (fun _ => 0); assign_buffer 1 (fun _ => 0)] st) 0%nat = 0.
Proof. reflexivity. Qed.

Lemma zero_buffer_1 (st : state) :
  buffer (block [assign_buffer 0 (fun _ => 0); assign_buffer 1 (fun _ => 0)] st) 1%nat = 0.
Proof. reflexivity. Qed.

Section ReportAndLog.

Variables (e : env) (i : nat) (st : state).

Lemma report_and_log_trace :
  trace (block (report_and_log e i) st)
  = trace st
    ++ fprintf_call stderr report_format (record_args st)
    :: log_events (log_open e i) (ints st first_timeA) (record_args st).
Proof.
  unfold report_and_log, block, log_events. state_simpl.
  rewrite int_var_eq_dec_refl.
  change (convert_to first_timeA) with to_int.
  destruct (log_open e i), (to_int (ints st first_timeA + 1) =? 1); state_simpl;
    rewrite <- !app_assoc; reflexivity.
Qed.

Lemma report_and_log_stopped :
  stopped (block (report_and_log e i) st) = log_fails e i || stopped st.
Proof.
  unfold report_and_log, block, log_fails. state_simpl.
  destruct (log_open e i), (_ =? 1); reflexivity.
Qed.

Lemma report_and_log_first_timeA :
  ints (block (report_and_log e i) st) first_timeA = to_int (ints st first_timeA + 1).
Proof.
  unfold report_and_log, block. state_simpl.
  rewrite int_var_eq_dec_refl.
  change (convert_to first_timeA) with to_int.
  destruct (log_open e i), (to_int (ints st first_timeA + 1) =? 1); state_simpl;
    rewrite ?int_var_eq_dec_refl; reflexivity.
Qed.

Lemma report_and_log_ints (Y : int_var) :
  Y <> first_timeA -> ints (block (report_and_log e i) st) Y = ints st Y.
Proof.
  intros HY. unfold report_and_log, block. state_simpl.
  rewrite int_var_eq_dec_refl.
  change (convert_to first_timeA) with to_int.
  destruct (log_open e i), (to_int (ints st first_timeA + 1) =? 1); state_simpl;
    destruct (int_var_eq_dec Y first_timeA); congruence.
Qed.

Lemma report_and_log_floats : floats (block (report_and_log e i) st) = floats st.
Proof.
  unfold report_and_log, block. state_simpl.
  rewrite int_var_eq_dec_refl.
  destruct (log_open e i), (_ =? 1); reflexivity.
Qed.

End ReportAndLog.

Lemma int_var_eq_dec_neq (x y : int_var) (A : Type) (a b : A) :
  x <> y -> (if int_var_eq_dec x y then a else b) = b.
Proof. destruct (int_var_eq_dec x y); congruence. Qed.

Lemma float_var_eq_dec_refl (x : float_var) (A : Type) (a b : A) :
  (if float_var_eq_dec x x then a else b) = a.
Proof. destruct (float_var_eq_dec x x); congruence. Qed.

Lemma float_var_eq_dec_neq (x y : float_var) (A : Type) (a b : A) :
  x <> y -> (if float_var_eq_dec x y then a else b) = b.
Proof. destruct (float_var_eq_dec x y); congruence. Qed.

Section Scaling.

Variables (X : float_var) (X_raw : int_var) (st : state).

Lemma scale_floats (Y : float_var) :
  floats (block [scale X X_raw] st) Y
  = if float_var_eq_dec Y X then scale32 (ints st X_raw) else floats st Y.
Proof. reflexivity. Qed.

Lemma scale_celsius_floats (Y : float_var) :
  floats (block [scale_celsius X X_raw] st) Y
  = if float_var_eq_dec Y X then scale32_minus40 (ints st X_raw) else floats st Y.
Proof. reflexivity. Qed.

Lemma scale_ints : ints (block [scale X X_raw] st) = ints st.
Proof. reflexivity. Qed.

Lemma scale_celsius_ints : ints (block [scale_celsius X X_raw] st) = ints st.
Proof. reflexivity. Qed.

Lemma scale_buffer : buffer (block [scale X X_raw] st) = buffer st.
Proof. reflexivity. Qed.

Lemma scale_celsius_buffer : buffer (block [scale_celsius X X_raw] st) = buffer st.
Proof. reflexivity. Qed.

Lemma scale_trace : trace (block [scale X X_raw] st) = trace st.
Proof. reflexivity. Qed.

Lemma scale_celsius_trace : trace (block [scale_celsius X X_raw] st) = trace st.
Proof. reflexivity. Qed.

Lemma scale_stopped : stopped (block [scale X X_raw] st) = stopped st.
Proof. reflexivity. Qed.

Lemma scale_celsius_stopped :
  stopped (block [scale_celsius X X_raw] st) = stopped st.
Proof. reflexivity. Qed.

End Scaling.

Section ZeroBuffer.

Variable st : state.

Lemma zero_buffer_ints : ints (block [assign_buffer 0 (fun _ => 0); assign_buffer 1 (fun _ => 0)] st) = ints st.
Proof. reflexivity. Qed.

Lemma zero_buffer_floats : floats (block [assign_buffer 0 (fun _ => 0); assign_buffer 1 (fun _ => 0)] st) = floats st.
Proof. reflexivity. Qed.

Lemma zero_buffer_trace : trace (block [assign_buffer 0 (fun _ => 0); assign_buffer 1 (fun _ => 0)] st) = trace st.
Proof. reflexivity. Qed.

Lemma zero_buffer_stopped : stopped (block [assign_buffer 0 (fun _ => 0); assign_buffer 1 (fun _ => 0)] st) = stopped st.
Proof. reflexivity. Qed.

End ZeroBuffer.

(** Pushes a projection of the state through the blocks of a pass. *)
Ltac through_pass :=
  try unfold loop_body; unfold poll_registers; rewrite !block_app;
  repeat first
    [ rewrite report_and_log_floats
    | rewrite report_and_log_ints by discriminate
    | rewrite read_register_floats
    | rewrite read_register_ints
    | rewrite read_register_buffer0
    | rewrite read_register_buffer1
    | rewrite scale_floats
    | rewrite scale_celsius_floats
    | rewrite scale_ints
    | rewrite scale_celsius_ints
    | rewrite scale_buffer
    | rewrite scale_celsius_buffer
    | rewrite zero_buffer_0
    | rewrite zero_buffer_1
    | rewrite zero_buffer_ints
    | rewrite zero_buffer_floats
    | rewrite read_register_trace
    | rewrite scale_trace
    | rewrite scale_celsius_trace
    | rewrite zero_buffer_trace
    | rewrite read_register_stopped
    | rewrite scale_stopped
    | rewrite scale_celsius_stopped
    | rewrite zero_buffer_stopped
    | rewrite int_var_eq_dec_refl
    | rewrite int_var_eq_dec_neq by discriminate
    | rewrite float_var_eq_dec_refl
    | rewrite float_var_eq_dec_neq by discriminate ].

Section Pass.

Variables (e : env) (i : nat) (st : state).

Lemma polled_temperature1_raw :
  ints (polled e i st) temperature1_raw = raw_after (replies e i 0).
Proof.
  rewrite <- raw_after_store. unfold polled. through_pass. reflexivity.
Qed.

Lemma polled_temperature2_raw :
  ints (polled e i st) temperature2_raw = raw_after (replies e i 1).
Proof.
  rewrite <- raw_after_store. unfold polled. through_pass. reflexivity.
Qed.

Lemma polled_HVvoltage_raw :
  ints (polled e i st) HVvoltage_raw = raw_after (replies e i 2).
Proof.
  rewrite <- raw_after_store. unfold polled. through_pass. reflexivity.
Qed.

Lemma polled_LVvoltage_raw :
  ints (polled e i st) LVvoltage_raw = raw_after (replies e i 3).
Proof.
  rewrite <- raw_after_store. unfold polled. through_pass. reflexivity.
Qed.

Lemma polled_I2_current_raw :
  ints (polled e i st) I2_current_raw = raw_after (replies e i 4).
Proof.
  rewrite <- raw_after_store. unfold polled. through_pass. reflexivity.
Qed.

Lemma polled_I1_current_raw :
  ints (polled e i st) I1_current_raw = raw_after (replies e i 5).
Proof.
  rewrite <- raw_after_store. unfold polled. through_pass. reflexivity.
Qed.

Lemma polled_I1_CNT :
  ints (polled e i st) I1_CNT = raw_after (replies e i 6).
Proof.
  rewrite <- raw_after_store. unfold polled. through_pass. reflexivity.
Qed.

Lemma polled_DUT_Status :
  ints (polled e i st) DUT_Status = raw_after (replies e i 7).
Proof.
  rewrite <- raw_after_store. unfold polled. through_pass. reflexivity.
Qed.

Lemma polled_temperature1_C :
  floats (polled e i st) temperature1_C = scale32_minus40 (raw_after (replies e i 0)).
Proof.
  rewrite <- raw_after_store. unfold polled. through_pass. reflexivity.
Qed.

Lemma polled_temperature2_C :
  floats (polled e i st) temperature2_C = scale32_minus40 (raw_after (replies e i 1)).
Proof.
  rewrite <- raw_after_store. unfold polled. through_pass. reflexivity.
Qed.

Lemma polled_HVvoltage_V :
  floats (polled e i st) HVvoltage_V = scale32 (raw_after (replies e i 2)).
Proof.
  rewrite <- raw_after_store. unfold polled. through_pass. reflexivity.
Qed.

Lemma polled_LVvoltage_V :
  floats (polled e i st) LVvoltage_V = scale32 (raw_after (replies e i 3)).
Proof.
  rewrite <- raw_after_store. unfold polled. through_pass. reflexivity.
Qed.

Lemma polled_I2_current_A :
  floats (polled e i st) I2_current_A = scale32 (raw_after (replies e i 4)).
Proof.
  rewrite <- raw_after_store. unfold polled. through_pass. reflexivity.
Qed.

Lemma polled_I1_current_A :
  floats (polled e i st) I1_current_A = scale32 (raw_after (replies e i 5)).
Proof.
  rewrite <- raw_after_store. unfold polled. through_pass. reflexivity.
Qed.

Lemma polled_first_timeA : ints (polled e i st) first_timeA = ints st first_timeA.
Proof. unfold polled. through_pass. reflexivity. Qed.

Lemma polled_record : record_args (polled e i st) = pass_args e i.
Proof.
  unfold record_args, pass_args.
  rewrite polled_HVvoltage_V, polled_LVvoltage_V, polled_I1_current_A,
    polled_I2_current_A, polled_temperature1_C, polled_temperature2_C,
    polled_I1_CNT, polled_DUT_Status.
  reflexivity.
Qed.

Lemma polled_trace : trace (polled e i st) = trace st ++ poll_events e i.
Proof.
  unfold polled. through_pass. unfold poll_events, registers.
  cbn [seq combine map List.concat fst snd].
  rewrite <- !app_assoc, app_nil_r. reflexivity.
Qed.

Lemma polled_stopped : stopped (polled e i st) = stopped st.
Proof. unfold polled. through_pass. reflexivity. Qed.

Lemma loop_body_stopped :
  stopped (loop_body e i st) = log_fails e i || stopped st.
Proof.
  unfold loop_body. rewrite block_app, report_and_log_stopped.
  fold (polled e i st). rewrite polled_stopped. reflexivity.
Qed.

Lemma loop_body_ints (Y : int_var) :
  Y <> first_timeA -> ints (loop_body e i st) Y = ints (polled e i st) Y.
Proof. intros HY. unfold loop_body. rewrite block_app. apply report_and_log_ints, HY. Qed.

Lemma loop_body_floats : floats (loop_body e i st) = floats (polled e i st).
Proof. unfold loop_body. rewrite block_app. apply report_and_log_floats. Qed.

Lemma loop_body_record : record_args (loop_body e i st) = pass_args e i.
Proof.
  rewrite <- polled_record. unfold record_args.
  rewrite loop_body_floats, !loop_body_ints by discriminate. reflexivity.
Qed.

Lemma loop_body_first_timeA :
  ints (loop_body e i st) first_timeA = to_int (ints st first_timeA + 1).
Proof.
  unfold loop_body. rewrite block_app, report_and_log_first_timeA.
  fold (polled e i st). rewrite polled_first_timeA. reflexivity.
Qed.

Lemma loop_body_trace :
  trace (loop_body e i st) = trace st ++ pass_events e i (ints st first_timeA).
Proof.
  unfold loop_body. rewrite block_app, report_and_log_trace. fold (polled e i st).
  rewrite polled_record, polled_first_timeA, polled_trace.
  unfold pass_events. rewrite <- app_assoc. reflexivity.
Qed.

Lemma loop_body_emitted :
  emitted (loop_body e i) st = pass_events e i (ints st first_timeA).
Proof.
  unfold emitted. rewrite loop_body_trace.
  rewrite skipn_app, skipn_all, Nat.sub_diag. reflexivity.
Qed.

End Pass.

(** ** Reading traces *)

Lemma reads_of_app (tr1 tr2 : list event) :
  reads_of (tr1 ++ tr2) = reads_of tr1 ++ reads_of tr2.
Proof.
  induction tr1 as [|ev tr1 IH]; [reflexivity|].
  destruct ev; cbn [app reads_of]; rewrite IH; reflexivity.
Qed.

Lemma file_writes_app (tr1 tr2 : list event) :
  file_writes (tr1 ++ tr2) = file_writes tr1 ++ file_writes tr2.
Proof.
  induction tr1 as [|ev tr1 IH]; [reflexivity|].
  destruct ev as [| | | | |[|[h|]] fmt args| | | |];
    cbn [app file_writes]; rewrite IH; reflexivity.
Qed.

Lemma file_lines_app (tr1 tr2 : list event) :
  file_lines (tr1 ++ tr2) = file_lines tr1 ++ file_lines tr2.
Proof.
  induction tr1 as [|ev tr1 IH]; [reflexivity|].
  destruct ev as [| | | | |[|[h|]] fmt args| | | |];
    cbn [app file_lines]; rewrite IH; reflexivity.
Qed.

Lemma file_calls_app (tr1 tr2 : list event) :
  file_calls (tr1 ++ tr2) = file_calls tr1 ++ file_calls tr2.
Proof. apply filter_app. Qed.

Lemma read_events_reads (r : read_reply) (reg : Z) (errfmt : string) :
  reads_of (read_events r reg errfmt) = [reg].
Proof. destruct r; reflexivity. Qed.

Lemma read_events_file_calls (r : read_reply) (reg : Z) (errfmt : string) :
  file_calls (read_events r reg errfmt) = [].
Proof. destruct r; reflexivity. Qed.

Lemma read_events_file_writes (r : read_reply) (reg : Z) (errfmt : string) :
  file_writes (read_events r reg errfmt) = [].
Proof. destruct r; reflexivity. Qed.

Lemma read_events_file_lines (r : read_reply) (reg : Z) (errfmt : string) :
  file_lines (read_events r reg errfmt) = [].
Proof. destruct r; reflexivity. Qed.

Section PollEvents.

Variables (e : env) (i : nat).

Lemma poll_events_reads : reads_of (poll_events e i) = registers.
Proof.
  unfold poll_events, registers. cbn [seq combine map List.concat fst snd].
  rewrite !reads_of_app, !read_events_reads. reflexivity.
Qed.

Lemma poll_events_file_calls : file_calls (poll_events e i) = [].
Proof.
  unfold poll_events, registers. cbn [seq combine map List.concat fst snd].
  rewrite !file_calls_app, !read_events_file_calls. reflexivity.
Qed.

Lemma poll_events_file_writes : file_writes (poll_events e i) = [].
Proof.
  unfold poll_events, registers. cbn [seq combine map List.concat fst snd].
  rewrite !file_writes_app, !read_events_file_writes. reflexivity.
Qed.

Lemma poll_events_file_lines : file_lines (poll_events e i) = [].
Proof.
  unfold poll_events, registers. cbn [seq combine map List.concat fst snd].
  rewrite !file_lines_app, !read_events_file_lines. reflexivity.
Qed.

Variable count : Z.

Lemma log_events_reads (fp : FILEp) (args : list printf_arg) :
  reads_of (log_events fp count args) = [].
Proof.
  unfold log_events. destruct fp, (to_int (count + 1) =? 1); reflexivity.
Qed.

Lemma log_events_file_calls (fp : FILEp) (args : list printf_arg) :
  file_calls (log_events fp count args)
  = fopen_call "outputA.csv" "a"
    :: match fp with
       | Some _ =>
           (if to_int (count + 1) =? 1
            then [fprintf_call (to_file fp) csv_header []] else [])
           ++ [ fprintf_call (to_file fp) csv_row_format args; fclose_call fp ]
       | None =>
           [ if to_int (count + 1) =? 1
             then fprintf_call (to_file None) csv_header []
             else fprintf_call (to_file None) csv_row_format args ]
       end.
Proof.
  unfold log_events. destruct fp, (to_int (count + 1) =? 1); reflexivity.
Qed.

Lemma log_events_file_writes (fp : FILEp) (args : list printf_arg) :
  file_writes (log_events fp count args)
  = match fp with
    | Some _ =>
        (if to_int (count + 1) =? 1 then [csv_header] else []) ++ [csv_row_format]
    | None => []
    end.
Proof.
  unfold log_events. destruct fp, (to_int (count + 1) =? 1); reflexivity.
Qed.

Lemma log_events_file_lines (fp : FILEp) (args : list printf_arg) :
  file_lines (log_events fp count args)
  = match fp with
    | Some _ =>
        (if to_int (count + 1) =? 1 then [csv_header] else [])
        ++ [render csv_row_format args]
    | None => []
    end.
Proof.
  unfold log_events. destruct fp, (to_int (count + 1) =? 1); reflexivity.
Qed.

Lemma pass_events_reads : reads_of (pass_events e i count) = registers.
Proof.
  unfold pass_events.
  rewrite reads_of_app, poll_events_reads.
  change (reads_of (?ev :: ?l)) with (reads_of l).
  rewrite log_events_reads. apply app_nil_r.
Qed.

Lemma pass_events_file_calls :
  file_calls (pass_events e i count)
  = file_calls (log_events (log_open e i) count (pass_args e i)).
Proof.
  unfold pass_events.
  rewrite file_calls_app, poll_events_file_calls. reflexivity.
Qed.

Lemma pass_events_file_writes :
  file_writes (pass_events e i count)
  = match log_open e i with
    | Some _ =>
        (if to_int (count + 1) =? 1 then [csv_header] else []) ++ [csv_row_format]
    | None => []
    end.
Proof.
  unfold pass_events.
  rewrite file_writes_app, poll_events_file_writes.
  apply log_events_file_writes.
Qed.

Lemma pass_events_file_lines :
  file_lines (pass_events e i count)
  = match log_open e i with
    | Some _ =>
        (if to_int (count + 1) =? 1 then [csv_header] else [])
        ++ [render csv_row_format (pass_args e i)]
    | None => []
    end.
Proof.
  unfold pass_events.
  rewrite file_lines_app, poll_events_file_lines.
  apply log_events_file_lines.
Qed.

End PollEvents.

(** ** The pass counter *)

Lemma to_int_succ (a : Z) : to_int (to_int a + 1) = to_int (a + 1).
Proof.
  unfold to_int, wrap_signed.
  change (2 ^ (32 - 1)) with 2147483648. change (2 ^ 32) with 4294967296.
  replace ((a + 2147483648) mod 4294967296 - 2147483648 + 1 + 2147483648)
    with ((a + 2147483648) mod 4294967296 + 1) by lia.
  rewrite Zplus_mod_idemp_l. do 2 f_equal. lia.
Qed.

Lemma to_int_one (k : Z) :
  0 <= k < 2 ^ 32 -> (to_int (k + 1) =? 1) = (k =? 0).
Proof.
  intros H. unfold to_int, wrap_signed.
  change (2 ^ (32 - 1)) with 2147483648. change (2 ^ 32) with 4294967296 in *.
  destruct (Z.eqb_spec k 0) as [->|Hk]; [reflexivity|].
  apply Z.eqb_neq.
  destruct (Z.ltb_spec k 2147483647).
  - rewrite Z.mod_small by lia. lia.
  - replace (k + 1 + 2147483648) with (k - 2147483647 + 1 * 4294967296) by lia.
    rewrite Z.mod_add by lia. rewrite Z.mod_small by lia. lia.
Qed.

(** ** How far a run gets *)

Lemma ended_before_S (e : env) (n : nat) :
  ended_before e (S n) = ended_before e n || log_fails e n.
Proof.
  unfold ended_before. rewrite seq_S, existsb_app. cbn [existsb Nat.add].
  rewrite orb_false_r. reflexivity.
Qed.

Lemma ended_before_later (e : env) (i n : nat) :
  (i < n)%nat -> log_fails e i = true -> ended_before e n = true.
Proof.
  intros Hi Hf. unfold ended_before. apply existsb_exists.
  exists i. split; [apply in_seq; lia | exact Hf].
Qed.

Lemma ended_before_earlier (e : env) (m n : nat) :
  (m <= n)%nat -> ended_before e n = false -> ended_before e m = false.
Proof.
  intros Hm Hn. destruct (ended_before e m) eqn:Hem; [|reflexivity].
  unfold ended_before in Hem. apply existsb_exists in Hem as (k & Hk & Hf).
  apply in_seq in Hk. rewrite <- Hn. symmetry.
  apply (ended_before_later e k n); [lia | exact Hf].
Qed.

Lemma passes_made_all (e : env) (n : nat) :
  ended_before e (Nat.pred n) = false -> passes_made e n = n.
Proof.
  destruct n as [|n]; [reflexivity|]. cbn [Nat.pred passes_made].
  intros ->. reflexivity.
Qed.

Lemma passes_made_stop (e : env) (i n : nat) :
  (i < n)%nat -> ended_before e i = false -> log_open e i = None ->
  passes_made e n = S i.
Proof.
  intros Hi Hbefore Hnull.
  assert (Hf : log_fails e i = true) by (unfold log_fails; rewrite Hnull; reflexivity).
  induction n as [|n IH]; [lia|]. cbn [passes_made].
  destruct (Nat.eq_dec i n) as [<-|Hne].
  - rewrite Hbefore. reflexivity.
  - rewrite (ended_before_later e i n) by (lia || exact Hf). apply IH. lia.
Qed.

Section Loop.

Variables (e : env) (st : state).
Hypothesis fresh : ints st first_timeA = 0.
Hypothesis alive : stopped st = false.

Lemma run_loop_stopped (n : nat) :
  stopped (run_loop e n st) = ended_before e n.
Proof.
  induction n as [|n IH]; [exact alive|].
  cbn [run_loop]. rewrite ended_before_S.
  destruct (stopped (run_loop e n st)) eqn:Hs.
  - rewrite Hs, <- IH. reflexivity.
  - rewrite loop_body_stopped, Hs, <- IH. apply orb_comm.
Qed.

Lemma run_loop_first_timeA (n : nat) :
  ints (run_loop e n st) first_timeA = to_int (Z.of_nat (passes_made e n)).
Proof.
  induction n as [|n IH]; [exact fresh|].
  cbn [run_loop passes_made]. rewrite run_loop_stopped.
  destruct (ended_before e n) eqn:He; [exact IH|].
  rewrite loop_body_first_timeA, IH.
  rewrite (passes_made_all e n (ended_before_earlier e _ n (Nat.le_pred_l n) He)).
  rewrite to_int_succ. f_equal. lia.
Qed.

Lemma run_loop_trace (n : nat) :
  trace (run_loop e n st) = trace st ++ passes_events e (passes_made e n).
Proof.
  induction n as [|n IH]; [symmetry; apply app_nil_r|].
  cbn [run_loop passes_made]. rewrite run_loop_stopped.
  destruct (ended_before e n) eqn:He; [exact IH|].
  rewrite loop_body_trace, IH, run_loop_first_timeA.
  rewrite (passes_made_all e n (ended_before_earlier e _ n (Nat.le_pred_l n) He)).
  unfold passes_events. rewrite seq_S, map_app, concat_app.
  cbn [map List.concat Nat.add]. rewrite app_nil_r, app_assoc. reflexivity.
Qed.

End Loop.

Lemma passes_events_S (e : env) (n : nat) :
  passes_events e (S n)
  = passes_events e n ++ pass_events e n (to_int (Z.of_nat n)).
Proof.
  unfold passes_events. rewrite seq_S, map_app, concat_app.
  cbn [map List.concat Nat.add]. rewrite app_nil_r. reflexivity.
Qed.

Lemma log_open_some (e : env) (i : nat) :
  log_fails e i = false -> exists h, log_open e i = Some h.
Proof.
  unfold log_fails. destruct (log_open e i) as [h|]; [|discriminate].
  intros _. exists h. reflexivity.
Qed.

Lemma passes_events_file_writes (e : env) (n : nat) :
  Z.of_nat n <= 2 ^ 32 -> ended_before e n = false ->
  file_writes (passes_events e n)
  = match n with O => [] | S _ => csv_header :: repeat csv_row_format n end.
Proof.
  change (2 ^ 32) with 4294967296.
  induction n as [|n IH]; intros Hn He; [reflexivity|].
  rewrite ended_before_S in He. apply orb_false_elim in He as [He Hf].
  destruct (log_open_some e n Hf) as [h Hh].
  rewrite passes_events_S, file_writes_app, pass_events_file_writes, Hh, IH
    by (lia || exact He).
  rewrite to_int_succ, to_int_one by (change (2 ^ 32) with 4294967296; lia).
  destruct n as [|n]; [reflexivity|].
  replace (Z.of_nat (S n) =? 0) with false by (symmetry; apply Z.eqb_neq; lia).
  cbn [app]. f_equal. symmetry. apply (repeat_cons (S n)).
Qed.

Lemma csv_formats_differ : csv_header <> csv_row_format.
Proof. intros H. vm_compute in H. discriminate. Qed.

Lemma header_count_rows (n : nat) :
  count_occ string_dec (repeat csv_row_format n) csv_header = 0%nat.
Proof.
  apply count_occ_not_In. intros H. apply repeat_spec in H.
  apply csv_formats_differ, H.
Qed.

Lemma row_count_rows (n : nat) :
  count_occ string_dec (repeat csv_row_format n) csv_row_format = n.
Proof. apply count_occ_repeat_eq. reflexivity. Qed.

(** ** [main] before the loop *)

Lemma final_state_alive_or_not (b : bool) (st : state) :
  final_state (if b then Crashed st else Polling st) = st.
Proof. destruct b; reflexivity. Qed.

(** The statements [main] runs before the loop once the adapter is opened
    and configured. *)
Lemma before_loop_unfold (e : env) :
  open_result e = 0 -> configure_result e = 0 ->
  before_loop e
  = block (fprintf (fun _ => stderr)
                   ("Device successfully configured." ++ CRLF) (fun _ => [])
           :: startup e)
      (block [ fprintf (fun _ => stderr)
                       (CRLF ++ "Device successfully opened." ++ CRLF) (fun _ => []);
               call (SMBus_Configure_call BITRATE_HZ ACK_ADDRESS AUTO_RESPOND
                       WRITE_TIMEOUT_MS READ_TIMEOUT_MS SCL_LOW_TIMEOUT
                       TRANSFER_RETRIES RESPONSE_TIMEOUT_MS) ]
         (call SMBus_Open_call (initial e))).
Proof.
  intros Ho Hc. unfold before_loop, main. rewrite Ho, Hc.
  cbn [negb Z.eqb run_loop]. apply final_state_alive_or_not.
Qed.

(** Splits the startup by the replies to its three reads and two writes. *)
Ltac startup_cases e Ho Hc :=
  rewrite ?(before_loop_unfold e Ho Hc);
  unfold startup, if_SMBus_Write_fails, SMBus_Write;
  destruct (startup_read e 0%nat), (startup_read e 1%nat), (startup_read e 2%nat),
    (startup_write e 0%nat =? 0), (startup_write e 1%nat =? 0).

Lemma before_loop_first_timeA (e : env) :
  open_result e = 0 -> configure_result e = 0 ->
  ints (before_loop e) first_timeA = 0.
Proof. intros Ho Hc. startup_cases e Ho Hc; reflexivity. Qed.

Lemma before_loop_alive (e : env) :
  open_result e = 0 -> configure_result e = 0 ->
  stopped (before_loop e) = false.
Proof. intros Ho Hc. startup_cases e Ho Hc; reflexivity. Qed.

Lemma before_loop_file_calls (e : env) :
  open_result e = 0 -> configure_result e = 0 ->
  file_calls (trace (before_loop e)) = [].
Proof. intros Ho Hc. startup_cases e Ho Hc; reflexivity. Qed.

Lemma main_outcome (e : env) (n : nat) :
  open_result e = 0 -> configure_result e = 0 ->
  main e n
  = if ended_before e n then Crashed (run_loop e n (before_loop e))
    else Polling (run_loop e n (before_loop e)).
Proof.
  intros Ho Hc.
  rewrite <- (run_loop_stopped e (before_loop e) (before_loop_alive e Ho Hc) n).
  rewrite (before_loop_unfold e Ho Hc).
  unfold main. rewrite Ho, Hc. reflexivity.
Qed.

Lemma main_final_state (e : env) (n : nat) :
  open_result e = 0 -> configure_result e = 0 ->
  final_state (main e n) = run_loop e n (before_loop e).
Proof.
  intros Ho Hc. rewrite (main_outcome e n Ho Hc).
  apply final_state_alive_or_not.
Qed.

Lemma main_trace (e : env) (n : nat) :
  open_result e = 0 -> configure_result e = 0 ->
  trace (final_state (main e n))
  = trace (before_loop e) ++ passes_events e (passes_made e n).
Proof.
  intros Ho Hc. rewrite (main_final_state e n Ho Hc).
  apply run_loop_trace;
    [apply before_loop_first_timeA | apply before_loop_alive]; assumption.
Qed.

Lemma no_file_calls (tr : list event) :
  file_calls tr = [] -> file_writes tr = [] /\ file_lines tr = [].
Proof.
  induction tr as [|ev tr IH]; [split; reflexivity|].
  destruct ev as [| | | | |[|[h|]] fmt args| | | |];
    cbn [file_calls filter is_file_call file_writes file_lines];
    try discriminate; exact IH.
Qed.

Lemma main_file_writes (e : env) (n : nat) :
  open_result e = 0 -> configure_result e = 0 -> Z.of_nat n <= 2 ^ 32 ->
  ended_before e n = false ->
  file_writes (trace (final_state (main e n)))
  = match n with O => [] | S _ => csv_header :: repeat csv_row_format n end.
Proof.
  intros Ho Hc Hn He. rewrite (main_trace e n Ho Hc).
  rewrite (passes_made_all e n (ended_before_earlier e _ n (Nat.le_pred_l n) He)).
  rewrite file_writes_app, passes_events_file_writes by assumption.
  destruct (no_file_calls _ (before_loop_file_calls e Ho Hc)) as [-> _].
  reflexivity.
Qed.

(** ** Stale bytes *)

Lemma replies_S (e : env) (i j : nat) :
  replies e i (S j) = replies e i j ++ [loop_read e i (S j)].
Proof. unfold replies. rewrite (seq_S (S j) 0), map_app. reflexivity. Qed.

Lemma replies_last (e : env) (i j : nat) :
  exists rs, replies e i j = rs ++ [loop_read e i j].
Proof.
  destruct j as [|j].
  - exists []. reflexivity.
  - exists (replies e i j). apply replies_S.
Qed.

Lemma raw_after_failure (e : env) (i j : nat) :
  loop_read e i (S j) = Failure ->
  raw_after (replies e i (S j)) = raw_after (replies e i j).
Proof.
  intros H. unfold raw_after, buffer0_after, buffer1_after.
  rewrite replies_S, !fold_left_app, H. reflexivity.
Qed.

Lemma raw_after_first_failure (e : env) (i : nat) :
  loop_read e i 0%nat = Failure -> raw_after (replies e i 0) = 0.
Proof.
  intros H. unfold raw_after, buffer0_after, buffer1_after, replies.
  cbn [seq map fold_left]. rewrite H. reflexivity.
Qed.

(** After a read that succeeded, the word is made of its two bytes. *)
Lemma raw_after_success (e : env) (i j : nat) (lo hi : Z) :
  loop_read e i j = Bytes lo hi ->
  0 <= lo <= 255 -> 0 <= hi <= 255 ->
  raw_after (replies e i j) = signed16 (256 * hi + lo).
Proof.
  intros H Hlo Hhi. destruct (replies_last e i j) as [rs ->].
  unfold raw_after, buffer0_after, buffer1_after.
  rewrite !fold_left_app, H. cbn [fold_left].
  rewrite !to_BYTE_byte by assumption. reflexivity.
Qed.

Ltac find_event :=
  solve [ left; reflexivity
        | right; find_event
        | apply in_or_app; left; find_event
        | apply in_or_app; right; find_event ].

Lemma failed_read_logged (e : env) (i j : nat) (reg : Z) :
  nth_error registers j = Some reg ->
  loop_read e i j = Failure ->
  In (fprintf_call stderr loop_read_error [ArgInt reg]) (poll_events e i).
Proof.
  intros Hreg Hfail. unfold poll_events, registers in *.
  cbn [seq combine map List.concat fst snd].
  do 8 (destruct j as [|j];
        [ cbn [nth_error] in Hreg; injection Hreg as <-; rewrite Hfail;
          unfold read_events; find_event | ]).
  destruct j; discriminate Hreg.
Qed.

(** ** The adapter calls of the startup *)

Lemma before_loop_bus_calls (e : env) :
  open_result e = 0 -> configure_result e = 0 ->
  bus_calls (trace (before_loop e))
  = [ SMBus_Open_call;
      SMBus_Configure_call 100000 0x02 false 10 10 true 0 100;
      SMBus_Read_call 0xC8 2 1 0x9B;
      SMBus_Read_call 0xC8 2 1 0xEA;
      SMBus_Write_call [0x10; 0x00] 0xC8 2;
      SMBus_Write_call
        [0xEA; to_BYTE (undefined_cast e 8 (ticks (of_int 600))); 0x4B] 0xC8 3;
      SMBus_Read_call 0xC8 2 1 0xEA ].
Proof.
  intros Ho Hc.
  rewrite <- (to_BYTE_idem (undefined_cast e 8 (ticks (of_int 600)))).
  change (to_BYTE (undefined_cast e 8 (ticks (of_int 600))))
    with (fst (to_BYTE (undefined_cast e 8 (ticks (of_int 600))), 0x4B)).
  rewrite <- (encode_ocp_setpoint_600 (undefined_cast e)).
  startup_cases e Ho Hc; reflexivity.
Qed.

Lemma filter_bus_calls (p : event -> bool) (tr : list event) :
  (forall ev, p ev = true -> is_bus_call ev = true) ->
  filter p tr = filter p (bus_calls tr).
Proof.
  intros Hp. unfold bus_calls. induction tr as [|ev tr IH]; [reflexivity|].
  cbn [filter]. destruct (is_bus_call ev) eqn:Hb.
  - cbn [filter]. rewrite IH. reflexivity.
  - destruct (p ev) eqn:Hpev; [|exact IH].
    rewrite (Hp ev Hpev) in Hb. discriminate.
Qed.

Lemma before_loop_writes (e : env) :
  open_result e = 0 -> configure_result e = 0 ->
  filter is_write (trace (before_loop e))
  = [ SMBus_Write_call [0x10; 0x00] 0xC8 2;
      SMBus_Write_call
        [0xEA; to_BYTE (undefined_cast e 8 (ticks (of_int 600))); 0x4B] 0xC8 3 ].
Proof.
  intros Ho Hc.
  rewrite (filter_bus_calls is_write) by (intros []; (discriminate || reflexivity)).
  rewrite (before_loop_bus_calls e Ho Hc). reflexivity.
Qed.

(** C3 (the code departs from the claim).  [main] encodes one setpoint,
    600 A.  Its tick count 600 * 32 = 19200 fits [UINT16], and the high
    byte, which the source takes from the [UINT16], is 0x4B as claimed.
    The low byte is not taken from the [UINT16]: the source converts the
    float 19200.0 to [UINT8], where it does not fit, so the conversion is
    undefined and the byte sent is the one the build produces there, 0x00
    or another.  Whenever the tick count fits the target type the
    conversion truncates it: the high byte is right on the whole 16-bit
    range, the low byte below 256 ticks (8 A) only. *)
Theorem ocp_setpoint_low_byte_undefined (e : env) :
  open_result e = 0 -> configure_result e = 0 ->
  (value (ticks (of_int 600)) == 19200)%Q
  /\ cast_unsigned 8 (ticks (of_int 600)) = None
  /\ cast_unsigned 16 (ticks (of_int 600)) = Some 19200
  /\ encode_ocp_setpoint (undefined_cast e) (of_int 600)
     = (to_BYTE (undefined_cast e 8 (ticks (of_int 600))), 0x4B)
  /\ filter is_write (trace (before_loop e))
     = [ SMBus_Write_call [0x10; 0x00] 0xC8 2;
         SMBus_Write_call
           [0xEA; to_BYTE (undefined_cast e 8 (ticks (of_int 600))); 0x4B]
           0xC8 3 ]
  /\ (forall amps z,
        cast_unsigned 16 (ticks amps) = Some z ->
        snd (encode_ocp_setpoint (undefined_cast e) amps) = z / 256
        /\ (z <= 255 -> fst (encode_ocp_setpoint (undefined_cast e) amps) = z)).
Proof.
  intros Ho Hc.
  split; [vm_compute; reflexivity|].
  split; [exact (proj1 ticks_600)|].
  split; [exact (proj2 ticks_600)|].
  split; [apply encode_ocp_setpoint_600|].
  split; [apply (before_loop_writes e Ho Hc)|].
  intros amps z Hz. unfold encode_ocp_setpoint. cbn [fst snd].
  split; [apply ocp_high_byte_defined, Hz|].
  intros Hsmall. apply ocp_low_byte_defined, cast_unsigned_narrow; assumption.
Qed.

(** Two builds, two payloads: 0xEA 0x00 0x4B where the undefined conversion
    gives 0, 0xEA 0xFF 0x4B where it saturates.  And 7.99 A, which is
    255.68 ticks, is sent as 255: the fraction is discarded. *)
Lemma ocp_setpoint_two_builds :
  filter is_write (trace (before_loop example_env))
  = [ SMBus_Write_call [0x10; 0x00] 0xC8 2;
      SMBus_Write_call [0xEA; 0x00; 0x4B] 0xC8 3 ]
  /\ filter is_write (trace (before_loop saturating_env))
     = [ SMBus_Write_call [0x10; 0x00] 0xC8 2;
         SMBus_Write_call [0xEA; 0xFF; 0x4B] 0xC8 3 ]
  /\ encode_ocp_setpoint (undefined_cast saturating_env)
       (div (of_int 799) (of_int 100))
     = (255, 0).
Proof.
  destruct (ocp_setpoint_low_byte_undefined example_env eq_refl eq_refl)
    as (_ & _ & _ & _ & H1 & _).
  destruct (ocp_setpoint_low_byte_undefined saturating_env eq_refl eq_refl)
    as (_ & _ & _ & _ & H2 & H3).
  split; [exact H1|]. split; [exact H2|].
  destruct (H3 (div (of_int 799) (of_int 100)) 255 eq_refl) as [Hhi Hlo].
  rewrite (surjective_pairing (encode_ocp_setpoint _ _)).
  rewrite Hhi, (Hlo ltac:(lia)). reflexivity.
Defined.

(** ** The polling loop *)

(** C6.  Every pass of the loop issues exactly eight register reads, in
    the order temperature 1, temperature 2, high voltage, low voltage,
    current 2, current 1, current-1 count, status.  A failed read is
    followed by its error line on [stderr] and the pass goes on: whatever
    the reads return, the eight reads are followed by the report line and
    by the opening of the log.  Every register variable holds the word of
    the two bytes the shared buffer holds then, read as two's complement:
    the bytes of its own read if it succeeded, and after a failed read the
    bytes left by the read before it.  No read ends the process (only a
    log that does not open does), and the next pass follows. *)
Theorem polling_pass_reads (e : env) (i : nat) (st : state) :
  reads_of (emitted (loop_body e i) st)
  = [0x8D; 0x8E; 0x88; 0x8B; 0x8C; 0x90; 0xCD; 0x79]
  /\ (exists rest,
        emitted (loop_body e i) st
        = poll_events e i
          ++ fprintf_call stderr report_format (pass_args e i)
          :: fopen_call "outputA.csv" "a" :: rest)
  /\ (forall j reg,
        nth_error registers j = Some reg -> loop_read e i j = Failure ->
        In (fprintf_call stderr loop_read_error [ArgInt reg])
           (emitted (loop_body e i) st))
  /\ ( ints (loop_body e i st) temperature1_raw = raw_after (replies e i 0)
       /\ ints (loop_body e i st) temperature2_raw = raw_after (replies e i 1)
       /\ ints (loop_body e i st) HVvoltage_raw = raw_after (replies e i 2)
       /\ ints (loop_body e i st) LVvoltage_raw = raw_after (replies e i 3)
       /\ ints (loop_body e i st) I2_current_raw = raw_after (replies e i 4)
       /\ ints (loop_body e i st) I1_current_raw = raw_after (replies e i 5)
       /\ ints (loop_body e i st) I1_CNT = raw_after (replies e i 6)
       /\ ints (loop_body e i st) DUT_Status = raw_after (replies e i 7) )
  /\ (forall j lo hi,
        loop_read e i j = Bytes lo hi -> 0 <= lo <= 255 -> 0 <= hi <= 255 ->
        raw_after (replies e i j)
        = if 256 * hi + lo <=? 32767 then 256 * hi + lo
          else 256 * hi + lo - 65536)
  /\ (forall j, loop_read e i (S j) = Failure ->
                raw_after (replies e i (S j)) = raw_after (replies e i j))
  /\ stopped (loop_body e i st) = log_fails e i || stopped st
  /\ (forall n, open_result e = 0 -> configure_result e = 0 ->
                ended_before e n = false ->
                final_state (main e (S n))
                = loop_body e n (final_state (main e n)))
  /\ (forall n, open_result e = 0 -> configure_result e = 0 ->
                ended_before e (S n) = false ->
                main e (S n)
                = Polling (loop_body e n (final_state (main e n)))).
Proof.
  split; [rewrite loop_body_emitted; apply pass_events_reads|].
  split.
  { rewrite loop_body_emitted. unfold pass_events, log_events.
    eexists. reflexivity. }
  split.
  { intros j reg Hreg Hfail. rewrite loop_body_emitted. unfold pass_events.
    apply in_or_app. left. exact (failed_read_logged e i j reg Hreg Hfail). }
  split.
  { rewrite !loop_body_ints by discriminate.
    rewrite polled_temperature1_raw, polled_temperature2_raw, polled_HVvoltage_raw,
      polled_LVvoltage_raw, polled_I2_current_raw, polled_I1_current_raw,
      polled_I1_CNT, polled_DUT_Status.
    repeat (split; [reflexivity|]). reflexivity. }
  split; [intros j lo hi; apply raw_after_success|].
  split; [intros j; apply raw_after_failure|].
  split; [apply loop_body_stopped|].
  assert (Hstep : forall n, open_result e = 0 -> configure_result e = 0 ->
                            ended_before e n = false ->
                            final_state (main e (S n))
                            = loop_body e n (final_state (main e n))).
  { intros n Ho Hc He. rewrite !(main_final_state e _ Ho Hc). cbn [run_loop].
    rewrite (run_loop_stopped e _ (before_loop_alive e Ho Hc)), He.
    reflexivity. }
  split; [exact Hstep|].
  intros n Ho Hc He. rewrite (main_outcome e (S n) Ho Hc), He.
  rewrite <- (main_final_state e (S n) Ho Hc). f_equal.
  apply (Hstep n Ho Hc).
  apply (ended_before_earlier e n (S n)); [lia | exact He].
Qed.

(** C9.  Every pass starts by zeroing [buffer[0]] and [buffer[1]].  If its
    first read (temperature 1) fails, the raw value is 0 and the
    temperature -40.0, whatever the pass before left in the buffer; more
    generally the record of a pass does not depend on the state it starts
    from, so stale bytes can only come from a read of the same pass. *)
Theorem first_read_failure_decodes_zero (e : env) (i : nat) (st : state) :
  loop_read e i 0%nat = Failure ->
  (exists rest,
      poll_registers e i
      = assign_buffer 0 (fun _ => 0) :: assign_buffer 1 (fun _ => 0) :: rest)
  /\ ints (loop_body e i st) temperature1_raw = 0
  /\ floats (loop_body e i st) temperature1_C = of_int (-40)
  /\ (value (floats (loop_body e i st) temperature1_C) == - (40 # 1))%Q
  /\ (forall st2, record_args (loop_body e i st) = record_args (loop_body e i st2)
                  /\ ints (loop_body e i st) temperature1_raw
                     = ints (loop_body e i st2) temperature1_raw).
Proof.
  intros Hfail.
  split; [eexists; reflexivity|].
  rewrite loop_body_floats, loop_body_ints by discriminate.
  rewrite polled_temperature1_raw, polled_temperature1_C.
  rewrite (raw_after_first_failure e i Hfail).
  split; [reflexivity|]. split; [reflexivity|]. split; [reflexivity|].
  intros st2. rewrite !loop_body_record.
  rewrite loop_body_ints, polled_temperature1_raw by discriminate.
  rewrite (raw_after_first_failure e i Hfail).
  split; reflexivity.
Qed.

(** The calls of a pass whose log does not open end with the first write. *)
Lemma pass_events_null (e : env) (i : nat) (count : Z) :
  log_open e i = None ->
  pass_events e i count
  = (poll_events e i
     ++ [ fprintf_call stderr report_format (pass_args e i);
          fopen_call "outputA.csv" "a" ])
    ++ [ if to_int (count + 1) =? 1
         then fprintf_call (to_file None) csv_header []
         else fprintf_call (to_file None) csv_row_format (pass_args e i) ].
Proof.
  intros H. unfold pass_events, log_events. rewrite H, <- app_assoc.
  reflexivity.
Qed.

(** C10.  In every pass the log is opened for append and the next call is
    a write through the pointer [fopen] returned, with no test of that
    pointer in between: the header if the counter has just reached one,
    the row otherwise.  With a stream the pass goes on to the row and the
    close; with the null pointer that write is issued on the null pointer
    all the same, and it is the last call the process makes. *)
Theorem log_written_without_check (e : env) (i : nat) (st : state) :
  file_calls (emitted (loop_body e i) st)
  = fopen_call "outputA.csv" "a"
    :: match log_open e i with
       | Some h =>
           (if to_int (ints st first_timeA + 1) =? 1
            then [fprintf_call (to_file (Some h)) csv_header []] else [])
           ++ [ fprintf_call (to_file (Some h)) csv_row_format (pass_args e i);
                fclose_call (Some h) ]
       | None =>
           [ if to_int (ints st first_timeA + 1) =? 1
             then fprintf_call (to_file None) csv_header []
             else fprintf_call (to_file None) csv_row_format (pass_args e i) ]
       end
  /\ (exists rest,
        file_calls (emitted (loop_body e i) st)
        = fopen_call "outputA.csv" "a"
          :: (if to_int (ints st first_timeA + 1) =? 1
              then fprintf_call (to_file (log_open e i)) csv_header []
              else fprintf_call (to_file (log_open e i)) csv_row_format
                                (pass_args e i))
          :: rest)
  /\ (log_open e i = None ->
      last (trace (loop_body e i st)) SMBus_Open_call
      = (if to_int (ints st first_timeA + 1) =? 1
         then fprintf_call (to_file None) csv_header []
         else fprintf_call (to_file None) csv_row_format (pass_args e i))
      /\ stopped (loop_body e i st) = true).
Proof.
  assert (Hcalls : file_calls (emitted (loop_body e i) st)
                   = file_calls (log_events (log_open e i) (ints st first_timeA)
                                            (pass_args e i))).
  { rewrite loop_body_emitted. apply pass_events_file_calls. }
  split.
  { rewrite Hcalls, log_events_file_calls.
    destruct (log_open e i); reflexivity. }
  split.
  { rewrite Hcalls, log_events_file_calls.
    destruct (log_open e i), (to_int (ints st first_timeA + 1) =? 1);
      eexists; reflexivity. }
  intros Hnull. split.
  - rewrite loop_body_trace, (pass_events_null e i _ Hnull), app_assoc.
    apply last_last.
  - rewrite loop_body_stopped. unfold log_fails. rewrite Hnull. reflexivity.
Qed.

(** ** The log over a run *)

Lemma count_nat_eqb (i : nat) : (Z.of_nat i =? 0) = Nat.eqb i 0.
Proof. destruct i; reflexivity. Qed.

(** C5 (the code departs from the claim).  As long as the log opens, the
    claim holds: after [n] passes ([1 <= n < 2^31]) the log has received
    the header once, first, and one row per pass.  But the source does not
    test what [fopen] returned: in the first pass [i] whose log does not
    open, the write through the null pointer ends the process.  That pass
    appends no row and no later pass is made; if it is the first pass of
    the run, not even the header is written. *)
Theorem csv_log_ends_at_failed_open (e : env) (n : nat) :
  open_result e = 0 -> configure_result e = 0 ->
  (1 <= n)%nat -> Z.of_nat n < 2 ^ 31 ->
  (ended_before e n = false ->
   file_writes (trace (final_state (main e n)))
   = csv_header :: repeat csv_row_format n
   /\ header_count (trace (final_state (main e n))) = 1%nat
   /\ row_count (trace (final_state (main e n))) = n
   /\ exists st, main e n = Polling st)
  /\ (forall i,
        (i < n)%nat -> ended_before e i = false -> log_open e i = None ->
        (exists st, main e n = Crashed st)
        /\ file_writes (trace (final_state (main e n)))
           = match i with
             | O => []
             | S _ => csv_header :: repeat csv_row_format i
             end
        /\ header_count (trace (final_state (main e n)))
           = (if Nat.eqb i 0 then 0 else 1)%nat
        /\ row_count (trace (final_state (main e n))) = i
        /\ last (trace (final_state (main e n))) SMBus_Open_call
           = (if Nat.eqb i 0
              then fprintf_call (to_file None) csv_header []
              else fprintf_call (to_file None) csv_row_format (pass_args e i))).
Proof.
  intros Ho Hc Hpos Hn. change (2 ^ 31) with 2147483648 in Hn.
  split.
  { intros He.
    assert (Hw : file_writes (trace (final_state (main e n)))
                 = csv_header :: repeat csv_row_format n).
    { rewrite (main_file_writes e n Ho Hc) by
        (try exact He; change (2 ^ 32) with 4294967296; lia).
      destruct n; [lia | reflexivity]. }
    split; [exact Hw|]. split.
    { unfold header_count. rewrite Hw.
      rewrite count_occ_cons_eq by reflexivity.
      rewrite header_count_rows. reflexivity. }
    split.
    { unfold row_count. rewrite Hw.
      rewrite count_occ_cons_neq by apply csv_formats_differ.
      apply row_count_rows. }
    eexists. rewrite (main_outcome e n Ho Hc), He. reflexivity. }
  intros i Hi Hbefore Hnull.
  assert (Hf : log_fails e i = true)
    by (unfold log_fails; rewrite Hnull; reflexivity).
  split.
  { eexists. rewrite (main_outcome e n Ho Hc).
    rewrite (ended_before_later e i n Hi Hf). reflexivity. }
  assert (Htr : trace (final_state (main e n))
                = (trace (before_loop e) ++ passes_events e i)
                  ++ pass_events e i (to_int (Z.of_nat i))).
  { rewrite (main_trace e n Ho Hc), (passes_made_stop e i n Hi Hbefore Hnull).
    rewrite passes_events_S. apply app_assoc. }
  assert (Hw : file_writes (trace (final_state (main e n)))
               = match i with
                 | O => []
                 | S _ => csv_header :: repeat csv_row_format i
                 end).
  { rewrite Htr, !file_writes_app, pass_events_file_writes, Hnull, app_nil_r.
    destruct (no_file_calls _ (before_loop_file_calls e Ho Hc)) as [-> _].
    apply passes_events_file_writes;
      [change (2 ^ 32) with 4294967296; lia | exact Hbefore]. }
  split; [exact Hw|]. split.
  { unfold header_count. rewrite Hw. destruct i as [|i]; [reflexivity|].
    rewrite count_occ_cons_eq by reflexivity.
    rewrite header_count_rows. reflexivity. }
  split.
  { unfold row_count. rewrite Hw. destruct i as [|i]; [reflexivity|].
    rewrite count_occ_cons_neq by apply csv_formats_differ.
    apply row_count_rows. }
  rewrite Htr, (pass_events_null e i _ Hnull), app_assoc, last_last.
  rewrite to_int_succ, to_int_one by (change (2 ^ 32) with 4294967296; lia).
  rewrite count_nat_eqb. reflexivity.
Qed.

(** A log that opens twice and then no more: the run observed for five
    passes has ended in its third, with the header and two rows written.
    A log that never opens: no header, no row. *)
Lemma csv_log_ends_at_failed_open_examples :
  file_writes (trace (final_state (main disk_full_env 5)))
  = [csv_header; csv_row_format; csv_row_format]
  /\ row_count (trace (final_state (main disk_full_env 5))) = 2%nat
  /\ (exists st, main disk_full_env 5 = Crashed st)
  /\ file_writes (trace (final_state (main silent_env 5))) = []
  /\ last (trace (final_state (main silent_env 5))) SMBus_Open_call
     = fprintf_call (to_file None) csv_header [].
Proof.
  destruct (csv_log_ends_at_failed_open disk_full_env 5 eq_refl eq_refl)
    as [_ H]; [lia | reflexivity |].
  destruct (H 2%nat ltac:(lia) eq_refl eq_refl) as (Hc & Hw & _ & Hr & _).
  destruct (csv_log_ends_at_failed_open silent_env 5 eq_refl eq_refl)
    as [_ H']; [lia | reflexivity |].
  destruct (H' 0%nat ltac:(lia) eq_refl eq_refl) as (_ & Hw' & _ & _ & Hl').
  split; [exact Hw|]. split; [exact Hr|]. split; [exact Hc|].
  split; [exact Hw' | exact Hl'].
Defined.

(** C4 (amended).  When a pass reads the words temp1 = 0x0500,
    temp2 = 0x0500, HV = 0x1400, LV = 0x0A00, I2 = 0x0200, I1 = 0x0300,
    cnt = 0x0007, status = 0x0000, the record is Temp1 = 0.00,
    Temp2 = 0.00, HV = 160.00, LV = 80.00, I2 = 16.00, I1 = 24.00,
    I1_CNT = 7, status = 0, and the row appended to the log it opened
    (after the header, in the first pass) is
    [160.00,80.00,24.00,16.00,0.00,0.00,7,0x0]. *)
Theorem end_to_end_sample (e : env) (i : nat) (st : state) :
  loop_read e i 0%nat = Bytes 0x00 0x05 ->
  loop_read e i 1%nat = Bytes 0x00 0x05 ->
  loop_read e i 2%nat = Bytes 0x00 0x14 ->
  loop_read e i 3%nat = Bytes 0x00 0x0A ->
  loop_read e i 4%nat = Bytes 0x00 0x02 ->
  loop_read e i 5%nat = Bytes 0x00 0x03 ->
  loop_read e i 6%nat = Bytes 0x07 0x00 ->
  loop_read e i 7%nat = Bytes 0x00 0x00 ->
  ( floats (loop_body e i st) temperature1_C = of_int 0
    /\ floats (loop_body e i st) temperature2_C = of_int 0
    /\ floats (loop_body e i st) HVvoltage_V = of_int 160
    /\ floats (loop_body e i st) LVvoltage_V = of_int 80
    /\ floats (loop_body e i st) I2_current_A = of_int 16
    /\ floats (loop_body e i st) I1_current_A = of_int 24
    /\ ints (loop_body e i st) I1_CNT = 7
    /\ ints (loop_body e i st) DUT_Status = 0 )
  /\ file_lines (emitted (loop_body e i) st)
     = match log_open e i with
       | Some _ =>
           (if to_int (ints st first_timeA + 1) =? 1 then [csv_header] else [])
           ++ [("160.00,80.00,24.00,16.00,0.00,0.00,7,0x0" ++ LF)%string]
       | None => []
       end.
Proof.
  intros H0 H1 H2 H3 H4 H5 H6 H7.
  rewrite loop_body_emitted, pass_events_file_lines.
  rewrite loop_body_floats, !loop_body_ints by discriminate.
  rewrite polled_temperature1_C, polled_temperature2_C, polled_HVvoltage_V,
    polled_LVvoltage_V, polled_I2_current_A, polled_I1_current_A,
    polled_I1_CNT, polled_DUT_Status.
  unfold pass_args, replies. cbn [seq map].
  rewrite H0, H1, H2, H3, H4, H5, H6, H7.
  split.
  - do 7 (split; [vm_compute; reflexivity|]). vm_compute. reflexivity.
  - destruct (log_open e i); [|reflexivity].
    f_equal; vm_compute; reflexivity.
Qed.

(** The first pass of the example run writes the header and this row. *)
Lemma end_to_end_first_pass :
  file_lines (emitted (loop_body example_env 0) (final_state (main example_env 0)))
  = [csv_header; ("160.00,80.00,24.00,16.00,0.00,0.00,7,0x0" ++ LF)%string].
Proof.
  destruct (end_to_end_sample example_env 0 (final_state (main example_env 0))
              eq_refl eq_refl eq_refl eq_refl eq_refl eq_refl eq_refl eq_refl)
    as [_ H].
  exact H.
Defined.

(** The row of the claim starts with a field that is not there: the row
    written for these eight words has the high voltage first and the low
    voltage second. *)
Lemma end_to_end_row_differs :
  file_lines (trace (final_state (main example_env 1)))
  = [csv_header; ("160.00,80.00,24.00,16.00,0.00,0.00,7,0x0" ++ LF)%string]
  /\ file_lines (trace (final_state (main example_env 1)))
     <> [csv_header; ("0.00,160.00,24.00,16.00,0.00,0.00,7,0x0" ++ LF)%string].
Proof.
  split; [vm_compute; reflexivity|].
  intros H. vm_compute in H. discriminate.
Qed.

(** C7 (amended).  If opening or configuring the adapter fails, the
    program reports the error, closes the device, then prompts and waits
    for the key, and returns -1; it never enters the loop: no register is
    read and the log file is not touched. *)
Theorem transport_failure_is_fatal (e : env) (n : nat) :
  open_result e <> 0 \/ configure_result e <> 0 ->
  exists st,
    main e n = Returned (-1) st
    /\ trace st
       = (if open_result e =? 0
          then [ SMBus_Open_call;
                 fprintf_call stderr (CRLF ++ "Device successfully opened." ++ CRLF) [];
                 SMBus_Configure_call 100000 0x02 false 10 10 true 0 100;
                 fprintf_call stderr ("ERROR: Could not configure device." ++ CRLF) [] ]
          else [ SMBus_Open_call;
                 fprintf_call stderr (CRLF ++ "ERROR: Could not open device." ++ CRLF) [] ])
         ++ [ SMBus_Close_call;
              fprintf_call stderr "Enter to exit..." [];
              getchar_call ]
    /\ reads_of (trace st) = []
    /\ file_calls (trace st) = [].
Proof.
  intros Hfail. unfold main.
  destruct (Z.eqb_spec (open_result e) 0) as [Ho|Ho]; cbn [negb].
  - destruct (Z.eqb_spec (configure_result e) 0) as [Hc|Hc]; cbn [negb].
    + destruct Hfail; contradiction.
    + eexists. split; [reflexivity|]. repeat split; reflexivity.
  - eexists. split; [reflexivity|]. repeat split; reflexivity.
Qed.

(** Without an adapter the program returns -1 however long it is observed. *)
Lemma transport_failure_unplugged :
  exists st, main unplugged_env 5 = Returned (-1) st
             /\ reads_of (trace st) = [] /\ file_calls (trace st) = [].
Proof.
  destruct (transport_failure_is_fatal unplugged_env 5) as (st & H1 & _ & H3 & H4);
    [left; discriminate|].
  exists st. split; [exact H1|]. split; [exact H3 | exact H4].
Defined.

(** The device is closed before the program waits for the key, not after. *)
Lemma close_precedes_acknowledgment :
  first_index is_close (trace (final_state (main unplugged_env 0))) = Some 2%nat
  /\ first_index is_getchar (trace (final_state (main unplugged_env 0))) = Some 4%nat
  /\ ~ (exists a b,
          first_index is_getchar (trace (final_state (main unplugged_env 0))) = Some a
          /\ first_index is_close (trace (final_state (main unplugged_env 0))) = Some b
          /\ (a < b)%nat).
Proof.
  split; [reflexivity|]. split; [reflexivity|].
  intros (a & b & Ha & Hb & Hlt).
  vm_compute in Ha, Hb. injection Ha as <-. injection Hb as <-. lia.
Qed.

(** On a bus where every read fails, the fourth pass still reads its eight
    registers, logs the failure of the second, decodes it from the bytes
    of the first, and is followed by a fifth pass. *)
Lemma polling_pass_reads_dead_bus :
  reads_of (emitted (loop_body dead_bus_env 3) (final_state (main dead_bus_env 3)))
  = [0x8D; 0x8E; 0x88; 0x8B; 0x8C; 0x90; 0xCD; 0x79]
  /\ In (fprintf_call stderr loop_read_error [ArgInt 0x8E])
        (emitted (loop_body dead_bus_env 3) (final_state (main dead_bus_env 3)))
  /\ raw_after (replies dead_bus_env 3 1) = raw_after (replies dead_bus_env 3 0)
  /\ main dead_bus_env 4
     = Polling (loop_body dead_bus_env 3 (final_state (main dead_bus_env 3)))
  /\ raw_after (replies example_env 3 2) = 0x1400.
Proof.
  destruct (polling_pass_reads dead_bus_env 3 (final_state (main dead_bus_env 3)))
    as (H1 & _ & H3 & _ & _ & H6 & _ & _ & H9).
  destruct (polling_pass_reads example_env 3 (final_state (main example_env 3)))
    as (_ & _ & _ & _ & H5 & _).
  split; [exact H1|].
  split; [apply (H3 1%nat 0x8E); reflexivity|].
  split; [apply (H6 0%nat); reflexivity|].
  split; [apply (H9 3%nat); reflexivity|].
  apply (H5 2%nat 0x00 0x14); [reflexivity | lia | lia].
Defined.

(** With 0xAA on the stack and no read ever succeeding, the first pass
    decodes temperature 1 from 0. *)
Lemma first_read_failure_silent :
  ints (loop_body silent_env 0 (final_state (main silent_env 0))) temperature1_raw = 0
  /\ floats (loop_body silent_env 0 (final_state (main silent_env 0))) temperature1_C
     = of_int (-40).
Proof.
  destruct (first_read_failure_decodes_zero silent_env 0
              (final_state (main silent_env 0))) as (_ & H1 & H2 & _);
    [reflexivity|].
  split; [exact H1 | exact H2].
Defined.

(** When the log cannot be opened, the first pass calls [fprintf] on the
    null pointer for the header, and the process ends there. *)
Lemma log_written_without_check_silent :
  last (trace (loop_body silent_env 0 (final_state (main silent_env 0))))
       SMBus_Open_call
  = fprintf_call (to_file None) csv_header []
  /\ stopped (loop_body silent_env 0 (final_state (main silent_env 0))) = true.
Proof.
  destruct (log_written_without_check silent_env 0
              (final_state (main silent_env 0))) as (_ & _ & H).
  exact (H eq_refl).
Defined.

(** * Further properties of [main] *)

(** ** Before the loop *)

(** X1.  Once the adapter is opened and configured, the program makes the
    same seven adapter calls before the loop whatever the device answers:
    open, configure (100 kHz, ACK address 0x02, no auto-respond, 10 ms
    timeouts, SCL-low timeout, no retries, 100 ms response timeout), read
    0x9B, read 0xEA, write 0x10 0x00, write 0xEA b 0x4B, read 0xEA, all at
    slave address 0xC8.  Nothing that was read goes into a write; the one
    byte that is not a constant of the source is [b], the low byte of the
    setpoint, which comes out of a conversion the language leaves
    undefined. *)
Theorem startup_bus_calls (e e2 : env) :
  open_result e = 0 -> configure_result e = 0 ->
  open_result e2 = 0 -> configure_result e2 = 0 ->
  bus_calls (trace (before_loop e))
  = [ SMBus_Open_call;
      SMBus_Configure_call 100000 0x02 false 10 10 true 0 100;
      SMBus_Read_call 0xC8 2 1 0x9B;
      SMBus_Read_call 0xC8 2 1 0xEA;
      SMBus_Write_call [0x10; 0x00] 0xC8 2;
      SMBus_Write_call
        [0xEA; to_BYTE (undefined_cast e 8 (ticks (of_int 600))); 0x4B] 0xC8 3;
      SMBus_Read_call 0xC8 2 1 0xEA ]
  /\ (undefined_cast e2 8 (ticks (of_int 600))
      = undefined_cast e 8 (ticks (of_int 600)) ->
      bus_calls (trace (before_loop e2)) = bus_calls (trace (before_loop e))).
Proof.
  intros Ho Hc Ho2 Hc2.
  split; [apply before_loop_bus_calls; assumption|].
  intros Hsame.
  rewrite (before_loop_bus_calls e Ho Hc), (before_loop_bus_calls e2 Ho2 Hc2).
  rewrite Hsame. reflexivity.
Qed.

(** A dead bus and a healthy one see the same calls. *)
Lemma startup_bus_calls_dead_bus :
  bus_calls (trace (before_loop dead_bus_env))
  = bus_calls (trace (before_loop example_env)).
Proof.
  destruct (startup_bus_calls example_env dead_bus_env eq_refl eq_refl eq_refl eq_refl)
    as [_ H].
  exact (H eq_refl).
Defined.

(** X2.  The two [HWOCP=] lines printed before the loop show whatever the
    shared buffer holds.  The first decodes the bytes of the OCP read, or,
    if that read failed, the bytes of the firmware-version read, or, if
    both failed, what the stack held.  The second (after the setpoint was
    written) decodes the bytes of the verification read, or, if it failed,
    the first two bytes of the write payload, 0xEA and the low setpoint
    byte [b]: the program then prints [HWOCP=7.31] if [b] is 0x00 and
    [HWOCP=-0.69] if [b] is 0xFF. *)
Theorem ocp_reports_reuse_buffer (e : env) :
  open_result e = 0 -> configure_result e = 0 ->
  ocp_reports (trace (before_loop e))
  = [ decode_voltage_or_current
        (word (bytes_after (startup_read e 1%nat)
                 (bytes_after (startup_read e 0%nat)
                    (to_BYTE (stack_garbage e 0%nat),
                     to_BYTE (stack_garbage e 1%nat)))));
      decode_voltage_or_current
        (word (bytes_after (startup_read e 2%nat)
                 (0xEA, to_BYTE (undefined_cast e 8 (ticks (of_int 600)))))) ]
  /\ floats (before_loop e) HWOCP_A
     = decode_voltage_or_current
         (word (bytes_after (startup_read e 2%nat)
                  (0xEA, to_BYTE (undefined_cast e 8 (ticks (of_int 600))))))
  /\ render ("HWOCP=%2.2f" ++ CRLF)
            [ArgDouble (decode_voltage_or_current (word (0xEA, 0x00)))]
     = ("HWOCP=7.31" ++ CRLF)%string
  /\ render ("HWOCP=%2.2f" ++ CRLF)
            [ArgDouble (decode_voltage_or_current (word (0xEA, 0xFF)))]
     = ("HWOCP=-0.69" ++ CRLF)%string.
Proof.
  intros Ho Hc.
  rewrite <- (to_BYTE_idem (undefined_cast e 8 (ticks (of_int 600)))).
  change (to_BYTE (undefined_cast e 8 (ticks (of_int 600))))
    with (fst (to_BYTE (undefined_cast e 8 (ticks (of_int 600))), 0x4B)).
  rewrite <- (encode_ocp_setpoint_600 (undefined_cast e)).
  split; [|split; [|split; vm_compute; reflexivity]].
  all: startup_cases e Ho Hc.
  all: reflexivity.
Qed.

(** On a dead bus with 0xAA on the stack. *)
Lemma ocp_reports_dead_bus :
  ocp_reports (trace (before_loop dead_bus_env))
  = [ decode_voltage_or_current 0xAAAA; decode_voltage_or_current 0x00EA ].
Proof.
  destruct (ocp_reports_reuse_buffer dead_bus_env eq_refl eq_refl) as (H & _).
  rewrite H. reflexivity.
Defined.

(** X3.  None of the three reads and two writes before the loop is fatal:
    each failure adds exactly one line to the seven the program always
    prints on [stderr] there, and the loop is entered all the same: the
    run goes on from the state the startup left, polling unless a log that
    did not open has ended it. *)
Theorem startup_failures_are_logged (e : env) (n : nat) :
  open_result e = 0 -> configure_result e = 0 ->
  List.length (filter is_stderr (trace (before_loop e)))
  = (7 + startup_failures e)%nat
  /\ main e 0 = Polling (before_loop e)
  /\ main e n
     = if ended_before e n then Crashed (run_loop e n (before_loop e))
       else Polling (run_loop e n (before_loop e)).
Proof.
  intros Ho Hc.
  split; [|split; [apply (main_outcome e 0 Ho Hc)
                  | apply (main_outcome e n Ho Hc)]].
  unfold startup_failures.
  startup_cases e Ho Hc; reflexivity.
Qed.

(** Five failures, twelve lines. *)
Lemma startup_failures_silent :
  List.length (filter is_stderr (trace (before_loop silent_env))) = 12%nat.
Proof.
  destruct (startup_failures_are_logged silent_env 0 eq_refl eq_refl) as [H _].
  exact H.
Defined.

(** X4.  [main] returns only with code -1, only when opening or
    configuring the adapter failed, and then before any pass of the loop:
    the [return 0] after [while(1)] is never reached. *)
Theorem main_returns_only_minus_one (e : env) (n : nat) (code : Z) (st : state) :
  main e n = Returned code st ->
  code = -1
  /\ (open_result e <> 0 \/ configure_result e <> 0)
  /\ main e 0 = Returned code st.
Proof.
  unfold main.
  destruct (Z.eqb_spec (open_result e) 0) as [Ho|Ho]; cbn [negb].
  - destruct (Z.eqb_spec (configure_result e) 0) as [Hc|Hc]; cbn [negb].
    + destruct (stopped _); discriminate.
    + intros H. injection H as <- <-. repeat split. right. exact Hc.
  - intros H. injection H as <- <-. repeat split. left. exact Ho.
Qed.

(** Without an adapter the outcome is the same at every observation. *)
Lemma main_returns_unplugged :
  main unplugged_env 0 = Returned (-1) (final_state (main unplugged_env 7)).
Proof.
  destruct (main_returns_only_minus_one unplugged_env 7 (-1)
              (final_state (main unplugged_env 7)) eq_refl) as (_ & _ & H).
  exact H.
Defined.

(** ** What a pass is made of *)

Lemma read_events_kinds (r : read_reply) (reg : Z) (errfmt : string) :
  forallb pass_kind (read_events r reg errfmt) = true.
Proof. destruct r; reflexivity. Qed.

Lemma pass_events_kinds (e : env) (i : nat) (count : Z) :
  forallb pass_kind (pass_events e i count) = true.
Proof.
  unfold pass_events, poll_events, registers, log_events.
  cbn [seq combine map List.concat fst snd].
  rewrite !forallb_app, !read_events_kinds.
  destruct (log_open e i), (to_int (count + 1) =? 1); reflexivity.
Qed.

Lemma passes_events_kinds (e : env) (n : nat) :
  forallb pass_kind (passes_events e n) = true.
Proof.
  induction n as [|n IH]; [reflexivity|].
  rewrite passes_events_S, forallb_app, IH, pass_events_kinds. reflexivity.
Qed.

Lemma filter_none (p q : event -> bool) (tr : list event) :
  (forall ev, q ev = true -> p ev = false) ->
  forallb q tr = true -> filter p tr = [].
Proof.
  intros Hpq. induction tr as [|ev tr IH]; [reflexivity|].
  cbn [forallb filter]. intros H. apply andb_prop in H as [Hev Htr].
  rewrite (Hpq ev Hev). apply IH, Htr.
Qed.

(** X5.  Once the adapter is configured the program never closes it and
    never waits for a key; the only SMBus writes of a run are the two of
    the startup (write-protect and setpoint): the loop only reads.  The
    run is then polling, unless a write to a log that did not open has
    ended it. *)
Theorem polling_never_writes_or_closes (e : env) (n : nat) :
  open_result e = 0 -> configure_result e = 0 ->
  filter is_write (trace (final_state (main e n)))
  = [ SMBus_Write_call [0x10; 0x00] 0xC8 2;
      SMBus_Write_call
        [0xEA; to_BYTE (undefined_cast e 8 (ticks (of_int 600))); 0x4B] 0xC8 3 ]
  /\ filter is_close (trace (final_state (main e n))) = []
  /\ filter is_getchar (trace (final_state (main e n))) = []
  /\ (exists st, (main e n = Polling st /\ ended_before e n = false)
                 \/ (main e n = Crashed st /\ ended_before e n = true)).
Proof.
  intros Ho Hc. rewrite (main_trace e n Ho Hc), !filter_app.
  rewrite (filter_none is_write pass_kind (passes_events e _)),
    (filter_none is_close pass_kind (passes_events e _)),
    (filter_none is_getchar pass_kind (passes_events e _));
    try apply passes_events_kinds; try (intros []; (discriminate || reflexivity)).
  rewrite !app_nil_r.
  rewrite (before_loop_writes e Ho Hc).
  rewrite (filter_bus_calls is_close)
    by (intros []; (discriminate || reflexivity)).
  rewrite (before_loop_bus_calls e Ho Hc).
  split; [reflexivity|]. split; [reflexivity|].
  split.
  - startup_cases e Ho Hc; reflexivity.
  - eexists. rewrite (main_outcome e n Ho Hc).
    destruct (ended_before e n); [right | left]; split; reflexivity.
Qed.

(** Nine passes on a dead bus: still two writes, no close. *)
Lemma polling_never_writes_or_closes_dead_bus :
  filter is_close (trace (final_state (main dead_bus_env 9))) = []
  /\ List.length (filter is_write (trace (final_state (main dead_bus_env 9)))) = 2%nat.
Proof.
  destruct (polling_never_writes_or_closes dead_bus_env 9 eq_refl eq_refl)
    as (Hw & Hc & _).
  split; [exact Hc | rewrite Hw; reflexivity].
Defined.

(** ** The run as a sequence of passes *)

Lemma concat_repeat_comm (A : Type) (l : list A) (n : nat) :
  List.concat (repeat l n) ++ l = l ++ List.concat (repeat l n).
Proof.
  induction n as [|n IH]; cbn [repeat List.concat].
  - rewrite app_nil_r. reflexivity.
  - rewrite <- app_assoc, IH. reflexivity.
Qed.

Lemma passes_events_reads (e : env) (n : nat) :
  reads_of (passes_events e n) = List.concat (repeat registers n).
Proof.
  induction n as [|n IH]; [reflexivity|].
  rewrite passes_events_S, reads_of_app, IH, pass_events_reads.
  cbn [repeat List.concat]. apply concat_repeat_comm.
Qed.

Lemma reads_of_bus_calls (tr : list event) :
  reads_of tr = reads_of (bus_calls tr).
Proof.
  unfold bus_calls. induction tr as [|ev tr IH]; [reflexivity|].
  destruct ev; cbn [filter is_bus_call reads_of]; rewrite ?IH; reflexivity.
Qed.

Lemma passes_events_well_addressed (e : env) (n : nat) :
  forallb well_addressed (passes_events e n) = true.
Proof.
  induction n as [|n IH]; [reflexivity|].
  rewrite passes_events_S, forallb_app, IH.
  unfold pass_events, poll_events, registers, log_events, read_events.
  cbn [seq combine map List.concat fst snd andb].
  rewrite !forallb_app.
  destruct (loop_read e n 0%nat), (loop_read e n 1%nat), (loop_read e n 2%nat),
    (loop_read e n 3%nat), (loop_read e n 4%nat), (loop_read e n 5%nat),
    (loop_read e n 6%nat), (loop_read e n 7%nat), (log_open e n),
    (to_int (to_int (Z.of_nat n) + 1) =? 1); reflexivity.
Qed.

Lemma registers_length (n : nat) :
  List.length (List.concat (repeat registers n)) = (8 * n)%nat.
Proof.
  induction n as [|n IH]; [reflexivity|].
  cbn [repeat List.concat]. rewrite length_app, IH.
  cbn [registers List.length]. lia.
Qed.

(** X6.  After [n] passes the program has read 0x9B, 0xEA, 0xEA and then
    [n] times the eight registers of the loop, [3 + 8 n] reads in all,
    every one of two bytes, with a one-byte register address, at slave
    address 0xC8.  The passes counted are those the process made: all [n]
    when the log opened in every pass before the last. *)
Theorem reads_of_run (e : env) (n : nat) :
  open_result e = 0 -> configure_result e = 0 ->
  reads_of (trace (final_state (main e n)))
  = [0x9B; 0xEA; 0xEA] ++ List.concat (repeat registers (passes_made e n))
  /\ List.length (reads_of (trace (final_state (main e n))))
     = (3 + 8 * passes_made e n)%nat
  /\ forallb well_addressed (trace (final_state (main e n))) = true
  /\ (ended_before e (Nat.pred n) = false -> passes_made e n = n).
Proof.
  intros Ho Hc.
  assert (Hr : reads_of (trace (final_state (main e n)))
               = [0x9B; 0xEA; 0xEA]
                 ++ List.concat (repeat registers (passes_made e n))).
  { rewrite (main_trace e n Ho Hc), reads_of_app, passes_events_reads.
    rewrite reads_of_bus_calls, (before_loop_bus_calls e Ho Hc). reflexivity. }
  split; [exact Hr|]. split; [|split].
  - rewrite Hr, length_app, registers_length. cbn [List.length]. lia.
  - rewrite (main_trace e n Ho Hc), forallb_app, passes_events_well_addressed.
    rewrite andb_true_r.
    startup_cases e Ho Hc; reflexivity.
  - apply passes_made_all.
Qed.

(** Five passes: 43 reads. *)
Lemma reads_of_run_example :
  List.length (reads_of (trace (final_state (main example_env 5)))) = 43%nat.
Proof.
  destruct (reads_of_run example_env 5 eq_refl eq_refl) as (_ & H & _ & Hn).
  rewrite H, (Hn eq_refl). reflexivity.
Defined.

Lemma rows_S (e : env) (n : nat) :
  rows e (S n) = rows e n ++ [render csv_row_format (pass_args e n)].
Proof. unfold rows. rewrite (seq_S n 0), map_app. reflexivity. Qed.

Lemma passes_events_file_lines (e : env) (n : nat) :
  Z.of_nat n <= 2 ^ 32 -> ended_before e n = false ->
  file_lines (passes_events e n)
  = match n with O => [] | S _ => csv_header :: rows e n end.
Proof.
  change (2 ^ 32) with 4294967296.
  induction n as [|n IH]; intros Hn He; [reflexivity|].
  rewrite ended_before_S in He. apply orb_false_elim in He as [He Hf].
  destruct (log_open_some e n Hf) as [h Hh].
  rewrite passes_events_S, file_lines_app, pass_events_file_lines, Hh, IH
    by (lia || exact He).
  rewrite to_int_succ, to_int_one by (change (2 ^ 32) with 4294967296; lia).
  destruct n as [|n]; [reflexivity|].
  replace (Z.of_nat (S n) =? 0) with false by (symmetry; apply Z.eqb_neq; lia).
  rewrite (rows_S e (S n)). reflexivity.
Qed.

(** X7.  After [n] passes ([1 <= n < 2^31]) in each of which the log
    opened, the text written to the log is the header followed by the rows
    of passes [0 .. n-1] in order, and the rows depend on nothing but the
    replies to the reads of their own pass. *)
Theorem log_text (e : env) (n : nat) :
  open_result e = 0 -> configure_result e = 0 ->
  (1 <= n)%nat -> Z.of_nat n < 2 ^ 31 -> ended_before e n = false ->
  file_lines (trace (final_state (main e n))) = csv_header :: rows e n
  /\ List.length (file_lines (trace (final_state (main e n)))) = S n
  /\ (forall e2,
        (forall i j, (i < n)%nat -> loop_read e2 i j = loop_read e i j) ->
        rows e2 n = rows e n).
Proof.
  intros Ho Hc Hpos Hn He. change (2 ^ 31) with 2147483648 in Hn.
  assert (Hl : file_lines (trace (final_state (main e n))) = csv_header :: rows e n).
  { rewrite (main_trace e n Ho Hc).
    rewrite (passes_made_all e n (ended_before_earlier e _ n (Nat.le_pred_l n) He)).
    rewrite file_lines_app, passes_events_file_lines
      by (try exact He; change (2 ^ 32) with 4294967296; lia).
    destruct (no_file_calls _ (before_loop_file_calls e Ho Hc)) as [_ ->].
    destruct n; [lia | reflexivity]. }
  split; [exact Hl|]. split.
  - rewrite Hl. unfold rows. cbn [List.length]. rewrite length_map, length_seq.
    reflexivity.
  - intros e2 Hsame. unfold rows. apply map_ext_in. intros k Hk.
    apply in_seq in Hk. unfold pass_args, replies. cbn [seq map].
    rewrite !Hsame by lia. reflexivity.
Qed.

(** Two passes of the example run. *)
Lemma log_text_example :
  file_lines (trace (final_state (main example_env 2)))
  = [ csv_header;
      ("160.00,80.00,24.00,16.00,0.00,0.00,7,0x0" ++ LF)%string;
      ("160.00,80.00,24.00,16.00,0.00,0.00,7,0x0" ++ LF)%string ].
Proof.
  destruct (log_text example_env 2 eq_refl eq_refl) as (H & _ & _);
    [lia | reflexivity | reflexivity |].
  rewrite H. vm_compute. reflexivity.
Defined.

(** ** Failed reads *)

(** X8.  A pass prints exactly one [ERROR: Could not perform SMBus read]
    line per failed read, and none for a read that succeeded. *)
Theorem one_error_line_per_failed_read (e : env) (i : nat) (st : state) :
  List.length (filter is_read_error (emitted (loop_body e i) st))
  = List.length (filter is_failure (replies e i 7)).
Proof.
  rewrite loop_body_emitted.
  unfold pass_events, poll_events, registers, log_events, read_events, replies.
  cbn [seq combine map List.concat fst snd].
  destruct (loop_read e i 0%nat), (loop_read e i 1%nat), (loop_read e i 2%nat),
    (loop_read e i 3%nat), (loop_read e i 4%nat), (loop_read e i 5%nat),
    (loop_read e i 6%nat), (loop_read e i 7%nat), (log_open e i),
    (to_int (ints st first_timeA + 1) =? 1); reflexivity.
Qed.

(** X9.  When all eight reads of a pass fail, the pass prints its eight
    error lines, which name the registers in order, and a report of zeros
    for the voltages and currents and -40.00 for both temperatures; if its
    log opens, it logs that record as a row like any other. *)
Theorem dead_bus_pass (e : env) (i : nat) (st : state) :
  (forall j, (j < 8)%nat -> loop_read e i j = Failure) ->
  file_lines (emitted (loop_body e i) st)
  = match log_open e i with
    | Some _ =>
        (if to_int (ints st first_timeA + 1) =? 1 then [csv_header] else [])
        ++ [("0.00,0.00,0.00,0.00,-40.00,-40.00,0,0x0" ++ LF)%string]
    | None => []
    end
  /\ stderr_lines (emitted (loop_body e i) st)
     = [ ("ERROR: Could not perform SMBus read. Reg = 8D" ++ CRLF)%string;
         ("ERROR: Could not perform SMBus read. Reg = 8E" ++ CRLF)%string;
         ("ERROR: Could not perform SMBus read. Reg = 88" ++ CRLF)%string;
         ("ERROR: Could not perform SMBus read. Reg = 8B" ++ CRLF)%string;
         ("ERROR: Could not perform SMBus read. Reg = 8C" ++ CRLF)%string;
         ("ERROR: Could not perform SMBus read. Reg = 90" ++ CRLF)%string;
         ("ERROR: Could not perform SMBus read. Reg = CD" ++ CRLF)%string;
         ("ERROR: Could not perform SMBus read. Reg = 79" ++ CRLF)%string;
         ("HV_V=0.00, LV_V=0.00, I1_A=0.00, I2_A=0.00, Temp1_C=-40.00, Temp2_C=-40.00, I1_CNT=0, DUT_Status=0x0"
            ++ CRLF)%string ].
Proof.
  intros Hdead. rewrite loop_body_emitted.
  unfold pass_events, poll_events, registers, log_events, read_events, pass_args,
    replies.
  cbn [seq combine map List.concat fst snd].
  rewrite !Hdead by lia.
  destruct (log_open e i), (to_int (ints st first_timeA + 1) =? 1);
    (split; vm_compute; reflexivity).
Qed.

(** The first pass on a dead bus. *)
Lemma dead_bus_pass_first :
  file_lines (emitted (loop_body dead_bus_env 0) (final_state (main dead_bus_env 0)))
  = [ csv_header; ("0.00,0.00,0.00,0.00,-40.00,-40.00,0,0x0" ++ LF)%string ].
Proof.
  destruct (dead_bus_pass dead_bus_env 0 (final_state (main dead_bus_env 0))
              (fun j _ => eq_refl)) as [H _].
  exact H.
Defined.

(** ** What the decoded values can be *)

Lemma raw_after_range (rs : list read_reply) :
  -32768 <= raw_after rs <= 32767.
Proof.
  rewrite <- raw_after_store, store_raw_to_INT16. apply to_INT16_range.
Qed.

Lemma scale32_bounds (X_raw : Z) :
  -32768 <= X_raw <= 32767 ->
  is_finite (scale32 X_raw) = true
  /\ (- (1024 # 1) <= value (scale32 X_raw))%Q
  /\ (value (scale32 X_raw) <= 32767 # 32)%Q.
Proof.
  intros H. destruct (scale32_value X_raw H) as [Hf Hv].
  split; [exact Hf|]. rewrite Hv. unfold Qle. cbn [Qnum Qden Qopp]. lia.
Qed.

Lemma scale32_minus40_bounds (X_raw : Z) :
  -32768 <= X_raw <= 32767 ->
  is_finite (scale32_minus40 X_raw) = true
  /\ (- (1064 # 1) <= value (scale32_minus40 X_raw))%Q
  /\ (value (scale32_minus40 X_raw) <= 31487 # 32)%Q.
Proof.
  intros H. destruct (scale32_minus40_value X_raw H) as [Hf Hv].
  split; [exact Hf|]. rewrite Hv.
  unfold Qle, Qminus, Qplus, Qopp. cbn [Qnum Qden]. lia.
Qed.

(** X10.  Whatever the device answers, every value of a record is finite:
    voltages and currents lie in [-1024, 1023.96875], temperatures in
    [-1064, 983.96875], and the raw variables in [-32768, 32767]; the log
    never holds [inf] or [nan]. *)
Theorem record_is_finite_and_bounded (e : env) (i : nat) (st : state) :
  Forall (fun X => is_finite (floats (loop_body e i st) X) = true
                   /\ (- (1024 # 1) <= value (floats (loop_body e i st) X))%Q
                   /\ (value (floats (loop_body e i st) X) <= 32767 # 32)%Q)
         [HVvoltage_V; LVvoltage_V; I1_current_A; I2_current_A]
  /\ Forall (fun X => is_finite (floats (loop_body e i st) X) = true
                      /\ (- (1064 # 1) <= value (floats (loop_body e i st) X))%Q
                      /\ (value (floats (loop_body e i st) X) <= 31487 # 32)%Q)
            [temperature1_C; temperature2_C]
  /\ Forall (fun X => -32768 <= ints (loop_body e i st) X <= 32767)
            [ temperature1_raw; temperature2_raw; HVvoltage_raw; LVvoltage_raw;
              I2_current_raw; I1_current_raw; I1_CNT; DUT_Status ].
Proof.
  rewrite loop_body_floats.
  split; [|split].
  - repeat constructor.
    + rewrite polled_HVvoltage_V. apply scale32_bounds, raw_after_range.
    + rewrite polled_HVvoltage_V. apply scale32_bounds, raw_after_range.
    + rewrite polled_HVvoltage_V. apply scale32_bounds, raw_after_range.
    + rewrite polled_LVvoltage_V. apply scale32_bounds, raw_after_range.
    + rewrite polled_LVvoltage_V. apply scale32_bounds, raw_after_range.
    + rewrite polled_LVvoltage_V. apply scale32_bounds, raw_after_range.
    + rewrite polled_I1_current_A. apply scale32_bounds, raw_after_range.
    + rewrite polled_I1_current_A. apply scale32_bounds, raw_after_range.
    + rewrite polled_I1_current_A. apply scale32_bounds, raw_after_range.
    + rewrite polled_I2_current_A. apply scale32_bounds, raw_after_range.
    + rewrite polled_I2_current_A. apply scale32_bounds, raw_after_range.
    + rewrite polled_I2_current_A. apply scale32_bounds, raw_after_range.
  - repeat constructor.
    + rewrite polled_temperature1_C. apply scale32_minus40_bounds, raw_after_range.
    + rewrite polled_temperature1_C. apply scale32_minus40_bounds, raw_after_range.
    + rewrite polled_temperature1_C. apply scale32_minus40_bounds, raw_after_range.
    + rewrite polled_temperature2_C. apply scale32_minus40_bounds, raw_after_range.
    + rewrite polled_temperature2_C. apply scale32_minus40_bounds, raw_after_range.
    + rewrite polled_temperature2_C. apply scale32_minus40_bounds, raw_after_range.
  - repeat apply Forall_cons; try apply Forall_nil;
      rewrite loop_body_ints by discriminate;
      rewrite ?polled_temperature1_raw, ?polled_temperature2_raw,
        ?polled_HVvoltage_raw, ?polled_LVvoltage_raw, ?polled_I2_current_raw,
        ?polled_I1_current_raw, ?polled_I1_CNT, ?polled_DUT_Status;
      apply raw_after_range.
Qed.

(** ** Signed storage *)

Lemma to_unsigned_signed16 (raw : Z) :
  0 <= raw <= 65535 ->
  to_unsigned (signed16 raw)
  = if raw <=? 32767 then raw else 0xFFFF0000 + raw.
Proof.
  intros H. unfold to_unsigned, wrap_unsigned, signed16.
  change (2 ^ 32) with 4294967296.
  destruct (Z.leb_spec raw 32767).
  - apply Z.mod_small. lia.
  - replace (raw - 65536) with (4294901760 + raw + (-1) * 4294967296) by lia.
    rewrite Z.mod_add by lia. apply Z.mod_small. lia.
Qed.

(** X11.  The current-1 count and the status are kept in [INT16]
    variables: a word with its top bit set is stored as [word - 65536], so
    the count is printed negative by [%d] and the status sign-extended to
    32 bits by [%x] (the word 0x8000 is printed [0xffff8000]). *)
Theorem count_and_status_are_signed (e : env) (i : nat) (st : state) (lo hi : Z) :
  0 <= lo <= 255 -> 0 <= hi <= 255 ->
  (loop_read e i 6%nat = Bytes lo hi ->
   ints (loop_body e i st) I1_CNT
   = (if hi <=? 127 then hi * 256 + lo else hi * 256 + lo - 65536))
  /\ (loop_read e i 7%nat = Bytes lo hi ->
      ints (loop_body e i st) DUT_Status
      = (if hi <=? 127 then hi * 256 + lo else hi * 256 + lo - 65536)
      /\ to_unsigned (ints (loop_body e i st) DUT_Status)
         = (if hi <=? 127 then hi * 256 + lo else 0xFFFF0000 + (hi * 256 + lo))).
Proof.
  intros Hlo Hhi.
  assert (Hw : 0 <= hi * 256 + lo <= 65535) by lia.
  assert (Hs : signed16 (256 * hi + lo)
               = if hi <=? 127 then hi * 256 + lo else hi * 256 + lo - 65536).
  { replace (256 * hi + lo) with (hi * 256 + lo) by lia.
    unfold signed16.
    destruct (Z.leb_spec (hi * 256 + lo) 32767), (Z.leb_spec hi 127);
      try reflexivity; lia. }
  split.
  - intros H. rewrite loop_body_ints, polled_I1_CNT by discriminate.
    rewrite (raw_after_success e i 6 lo hi H Hlo Hhi). exact Hs.
  - intros H. rewrite loop_body_ints, polled_DUT_Status by discriminate.
    rewrite (raw_after_success e i 7 lo hi H Hlo Hhi), Hs. split; [reflexivity|].
    pose proof (to_unsigned_signed16 _ Hw) as Hu. unfold signed16 in Hu.
    destruct (Z.leb_spec (hi * 256 + lo) 32767), (Z.leb_spec hi 127);
      try exact Hu; lia.
Qed.

(** Count 0xFFFF and status 0x8000. *)
Lemma count_and_status_overflow :
  ints (loop_body overflow_env 0 (before_loop overflow_env)) I1_CNT = -1
  /\ ints (loop_body overflow_env 0 (before_loop overflow_env)) DUT_Status = -32768
  /\ file_lines (emitted (loop_body overflow_env 0) (before_loop overflow_env))
     = [ csv_header;
         ("160.00,80.00,24.00,16.00,0.00,0.00,-1,0xffff8000" ++ LF)%string ].
Proof.
  destruct (count_and_status_are_signed overflow_env 0 (before_loop overflow_env)
              0xFF 0xFF ltac:(lia) ltac:(lia)) as [H6 _].
  destruct (count_and_status_are_signed overflow_env 0 (before_loop overflow_env)
              0x00 0x80 ltac:(lia) ltac:(lia)) as [_ H7].
  split; [exact (H6 eq_refl)|].
  split; [exact (proj1 (H7 eq_refl))|].
  rewrite loop_body_emitted, pass_events_file_lines. vm_compute. reflexivity.
Defined.

(** X12.  The second assignment of every register, [X_raw = X_raw & 0xFFFF],
    changes nothing: the masked value is converted back to [INT16] and is
    the value the variable already had. *)
Theorem mask_changes_nothing (X_raw : int_var) (st : state) :
  convert_to X_raw = to_INT16 ->
  -32768 <= ints st X_raw <= 32767 ->
  forall Y,
    ints (assign_int X_raw (fun s => Z.land (ints s X_raw) 0xFFFF) st) Y
    = ints st Y.
Proof.
  intros HX Hrange Y. cbn [assign_int ints].
  destruct (int_var_eq_dec Y X_raw) as [->|Hne]; [|reflexivity].
  rewrite HX.
  pose proof (store_raw_to_INT16 (ints st X_raw)) as H. unfold store_raw in H.
  rewrite (to_INT16_small _ Hrange) in H. exact H.
Qed.

(** The status -32768 survives the mask. *)
Lemma mask_changes_nothing_status :
  ints (assign_int DUT_Status (fun s => Z.land (ints s DUT_Status) 0xFFFF)
          (loop_body overflow_env 0 (before_loop overflow_env))) DUT_Status
  = -32768.
Proof.
  rewrite (mask_changes_nothing DUT_Status
             (loop_body overflow_env 0 (before_loop overflow_env)) eq_refl).
  - reflexivity.
  - vm_compute. split; discriminate.
Defined.

(** ** The decoders lose nothing *)

Lemma signed16_injective (raw1 raw2 : Z) :
  0 <= raw1 <= 65535 -> 0 <= raw2 <= 65535 ->
  signed16 raw1 = signed16 raw2 -> raw1 = raw2.
Proof.
  unfold signed16. intros H1 H2.
  destruct (Z.leb_spec raw1 32767), (Z.leb_spec raw2 32767); lia.
Qed.

(** X13.  Both decoders are one-to-one on the 16-bit words: different
    register words never decode to the same float, and the temperature of
    a word is its voltage/current reading minus 40. *)
Theorem decoders_are_injective (raw1 raw2 : Z) :
  0 <= raw1 <= 65535 -> 0 <= raw2 <= 65535 ->
  (decode_voltage_or_current raw1 = decode_voltage_or_current raw2 -> raw1 = raw2)
  /\ (decode_temperature raw1 = decode_temperature raw2 -> raw1 = raw2)
  /\ (value (decode_temperature raw1)
      == value (decode_voltage_or_current raw1) - 40)%Q.
Proof.
  intros H1 H2.
  pose proof (signed16_range _ H1) as R1. pose proof (signed16_range _ H2) as R2.
  unfold decode_voltage_or_current, decode_temperature.
  rewrite !store_raw_word by assumption.
  destruct (scale32_value _ R1) as [_ V1]. destruct (scale32_value _ R2) as [_ V2].
  destruct (scale32_minus40_value _ R1) as [_ T1].
  destruct (scale32_minus40_value _ R2) as [_ T2].
  split; [|split].
  - intros Heq. apply signed16_injective; try assumption.
    rewrite Heq, V2 in V1. unfold Qeq in V1. cbn [Qnum Qden] in V1. lia.
  - intros Heq. apply signed16_injective; try assumption.
    rewrite Heq, T2 in T1. unfold Qeq, Qminus, Qplus, Qopp in T1.
    cbn [Qnum Qden] in T1. lia.
  - rewrite T1, V1. reflexivity.
Qed.

(** 0x7FFF and 0x8000 decode differently. *)
Lemma decoders_are_injective_example :
  (decode_voltage_or_current 0x7FFF = decode_voltage_or_current 0x8000 -> False)
  /\ (value (decode_temperature 0x0500) == value (decode_voltage_or_current 0x0500) - 40)%Q.
Proof.
  destruct (decoders_are_injective 0x7FFF 0x8000) as (H & _ & _); [lia|lia|].
  destruct (decoders_are_injective 0x0500 0x0500) as (_ & _ & H3); [lia|lia|].
  split; [intros Heq; specialize (H Heq); discriminate | exact H3].
Defined.

(** ** Pass after pass *)

Lemma pass_events_sleeps (e : env) (i : nat) (count : Z) :
  filter is_sleep (pass_events e i count)
  = if log_fails e i then [] else [Sleep_call 500].
Proof.
  unfold pass_events, poll_events, registers, log_events, read_events, log_fails.
  cbn [seq combine map List.concat fst snd].
  destruct (loop_read e i 0%nat), (loop_read e i 1%nat), (loop_read e i 2%nat),
    (loop_read e i 3%nat), (loop_read e i 4%nat), (loop_read e i 5%nat),
    (loop_read e i 6%nat), (loop_read e i 7%nat), (log_open e i),
    (to_int (count + 1) =? 1); reflexivity.
Qed.

Lemma passes_events_sleeps (e : env) (n : nat) :
  ended_before e n = false ->
  filter is_sleep (passes_events e n) = repeat (Sleep_call 500) n.
Proof.
  induction n as [|n IH]; intros He; [reflexivity|].
  rewrite ended_before_S in He. apply orb_false_elim in He as [He Hf].
  rewrite passes_events_S, filter_app, IH, pass_events_sleeps, Hf by exact He.
  symmetry. apply (repeat_cons n).
Qed.

Lemma before_loop_kinds (e : env) :
  open_result e = 0 -> configure_result e = 0 ->
  forallb startup_kind (trace (before_loop e)) = true.
Proof. intros Ho Hc. startup_cases e Ho Hc; reflexivity. Qed.

Lemma before_loop_sleeps (e : env) :
  open_result e = 0 -> configure_result e = 0 ->
  filter is_sleep (trace (before_loop e)) = [].
Proof.
  intros Ho Hc. apply (filter_none is_sleep startup_kind).
  - intros [| | | | |[]| | | |]; (discriminate || reflexivity).
  - apply (before_loop_kinds e Ho Hc).
Qed.



(** ** The end of a run *)

Lemma run_loop_ended (e : env) (st : state) (i m : nat) :
  stopped st = false ->
  (i < m)%nat -> ended_before e i = false -> log_open e i = None ->
  run_loop e m st = loop_body e i (run_loop e i st).
Proof.
  intros Halive Hi Hbefore Hnull.
  assert (Hf : log_fails e i = true)
    by (unfold log_fails; rewrite Hnull; reflexivity).
  induction m as [|m IH]; [lia|]. cbn [run_loop].
  rewrite (run_loop_stopped e st Halive m).
  destruct (Nat.eq_dec i m) as [<-|Hne].
  - rewrite Hbefore. reflexivity.
  - rewrite (ended_before_later e i m) by (lia || exact Hf). apply IH. lia.
Qed.

(** X15.  The first pass whose log does not open is the last thing the
    program does: however much longer the run is observed, it is the run
    that was ended in that pass.  The pass has made its eight reads and
    printed its report all the same, and the run has paused once for each
    pass before it. *)
Theorem failed_open_ends_the_run (e : env) (i m : nat) :
  open_result e = 0 -> configure_result e = 0 ->
  ended_before e i = false -> log_open e i = None -> (i < m)%nat ->
  main e m = Crashed (loop_body e i (final_state (main e i)))
  /\ main e m = main e (S i)
  /\ reads_of (trace (final_state (main e m)))
     = [0x9B; 0xEA; 0xEA] ++ List.concat (repeat registers (S i))
  /\ In (fprintf_call stderr report_format (pass_args e i))
        (trace (final_state (main e m)))
  /\ filter is_sleep (trace (final_state (main e m))) = repeat (Sleep_call 500) i.
Proof.
  intros Ho Hc Hbefore Hnull Hi.
  assert (Hf : log_fails e i = true)
    by (unfold log_fails; rewrite Hnull; reflexivity).
  assert (Hm : forall k, (i < k)%nat ->
                         main e k
                         = Crashed (loop_body e i (final_state (main e i)))).
  { intros k Hk. rewrite (main_outcome e k Ho Hc), (main_final_state e i Ho Hc).
    rewrite (ended_before_later e i k Hk Hf).
    rewrite (run_loop_ended e _ i k (before_loop_alive e Ho Hc) Hk Hbefore Hnull).
    reflexivity. }
  split; [apply Hm, Hi|].
  split; [rewrite (Hm m Hi), (Hm (S i)) by lia; reflexivity|].
  assert (Htr : trace (final_state (main e m))
                = trace (before_loop e) ++ passes_events e (S i)).
  { rewrite (main_trace e m Ho Hc), (passes_made_stop e i m Hi Hbefore Hnull).
    reflexivity. }
  split; [|split].
  - rewrite Htr, reads_of_app, passes_events_reads.
    rewrite reads_of_bus_calls, (before_loop_bus_calls e Ho Hc). reflexivity.
  - rewrite Htr, passes_events_S. apply in_or_app. right.
    apply in_or_app. right. unfold pass_events.
    apply in_or_app. right. left. reflexivity.
  - rewrite Htr, passes_events_S, !filter_app.
    rewrite (before_loop_sleeps e Ho Hc), (passes_events_sleeps e i Hbefore).
    rewrite pass_events_sleeps, Hf. apply app_nil_r.
Qed.

(** A log that opens twice and then no more: after three passes or after
    thirty, the run is the one that ended in the third pass, with its 27
    reads and two pauses. *)
Lemma failed_open_ends_the_run_example :
  main disk_full_env 30 = main disk_full_env 3
  /\ List.length (reads_of (trace (final_state (main disk_full_env 30)))) = 27%nat
  /\ filter is_sleep (trace (final_state (main disk_full_env 30)))
     = [Sleep_call 500; Sleep_call 500].
Proof.
  destruct (failed_open_ends_the_run disk_full_env 2 30
              eq_refl eq_refl eq_refl eq_refl ltac:(lia))
    as (_ & H2 & H3 & _ & H5).
  split; [exact H2|]. split; [rewrite H3; reflexivity | exact H5].
Defined.
